(** * Contextual bookmarks: the context-scoped bookmark store and its edit reconciler

    A shallow embedding of [BookmarkManager] (the multi-context variant of
    [src/bookmarkManager.ts]) together with the properties its specification
    states about it.

    Modelling conventions.
    - [storage] is a JavaScript object used as a dictionary from context id to
      bookmark array; it is a [gmap string (list Bookmark)] of its own
      properties, and [storage[k]] finds own properties only (the names an
      object inherits from [Object.prototype] are not context ids of the
      model).  Every array stored in it is reached through one key only
      (arrays are created by [[]], [filter] or JSON hydration), so in-place
      updates of the active array ([push], [splice], assignments to
      [bookmark.lineNumber] and [bookmark.label]) are written as updates of
      the entry under [activeContextId].
    - JavaScript numbers that hold indices and line numbers are [Z];
      [currentBookmarkIndex = -1] is the unset cursor.
    - [workspaceState] is the extension's key-value memento with the three
      keys the manager uses; [update] stores a snapshot of the value.
    - An exception raised by the editor API ([new Position] with a negative
      line, [lineAt] out of range) ends [handleTextDocumentChange] with
      [Threw]; the manager keeps the state reached at that point.
    - [uuidv4()] is an input of [addBookmark]. *)

From Stdlib Require Import ZArith String Ascii List Lia Bool.
From stdpp Require Import gmap strings list fin_maps.

Local Open Scope Z_scope.

(** ** src/bookmark.ts *)

Record Bookmark := mkBookmark {
  id : string;
  fsPath : string;
  lineNumber : Z;
  label : string
}.

#[global] Instance Bookmark_eq_dec : EqDecision Bookmark.
Proof. solve_decision. Defined.

(** ** JavaScript array primitives used by the manager *)

(** [Array.prototype.findIndex]: index of the first element satisfying [p],
    or [-1]. *)
Fixpoint findIndex {A : Type} (p : A -> bool) (l : list A) : Z :=
  match l with
  | [] => -1
  | x :: l' =>
      if p x then 0
      else let i := findIndex p l' in if i <? 0 then -1 else i + 1
  end.

(** [arr[i]]: [undefined] outside the array. *)
Definition at_index {A : Type} (l : list A) (i : Z) : option A :=
  if i <? 0 then None else l !! Z.to_nat i.

(** [arr.splice(i, 1)] for an index inside the array: the array that is left. *)
Definition splice_out {A : Type} (i : Z) (l : list A) : list A :=
  delete (Z.to_nat i) l.

(** [arr.splice(i, 0, x)]. *)
Definition splice_in {A : Type} (i : Z) (x : A) (l : list A) : list A :=
  take (Z.to_nat i) l ++ x :: drop (Z.to_nat i) l.

(** [arr.push(x)]. *)
Definition push {A : Type} (x : A) (l : list A) : list A := l ++ [x].

Definition length_Z {A : Type} (l : list A) : Z := Z.of_nat (length l).

(** ** Persistent workspace state *)

Record Memento := mkMemento {
  ws_bookmarks : option (list Bookmark);                   (* key 'bookmarks' *)
  ws_bookmark_storage : option (gmap string (list Bookmark)); (* key 'bookmark-storage' *)
  ws_bookmark_active_context : option string               (* key 'bookmark-active-context' *)
}.

Definition emptyMemento : Memento := mkMemento None None None.

(** ** The manager *)

Definition DEFAULT_CONTEXT : string := "default".

Record BookmarkManager := mkManager {
  storage : gmap string (list Bookmark);
  activeContextId : string;
  currentBookmarkIndex : Z;
  workspaceState : Memento
}.

Definition set_storage (st : gmap string (list Bookmark)) (m : BookmarkManager)
  : BookmarkManager :=
  mkManager st (activeContextId m) (currentBookmarkIndex m) (workspaceState m).

Definition set_active (a : string) (m : BookmarkManager) : BookmarkManager :=
  mkManager (storage m) a (currentBookmarkIndex m) (workspaceState m).

Definition set_cursor (i : Z) (m : BookmarkManager) : BookmarkManager :=
  mkManager (storage m) (activeContextId m) i (workspaceState m).

(** [this.storage[k]] used as a condition: is there an array under [k]? *)
Definition has_context (m : BookmarkManager) (k : string) : bool :=
  bool_decide (is_Some (storage m !! k)).

(** [save]: both keys are written from the in-memory state. *)
Definition save (m : BookmarkManager) : BookmarkManager :=
  mkManager (storage m) (activeContextId m) (currentBookmarkIndex m)
    (mkMemento (ws_bookmarks (workspaceState m))
               (Some (storage m)) (Some (activeContextId m))).

(** The constructor: fields take their initial values, then [load] runs. *)
Definition load (ws : Memento) : BookmarkManager :=
  match ws_bookmarks ws with
  | Some (b :: bs) =>
      (* migration from the old format *)
      save (mkManager (<[DEFAULT_CONTEXT := b :: bs]> ∅) DEFAULT_CONTEXT (-1)
              (mkMemento None (ws_bookmark_storage ws)
                         (ws_bookmark_active_context ws)))
  | _ =>
      let m := mkManager
                 (default {[DEFAULT_CONTEXT := []]} (ws_bookmark_storage ws))
                 (default DEFAULT_CONTEXT (ws_bookmark_active_context ws))
                 (-1) ws in
      if has_context m (activeContextId m) then m
      else
        let m := set_active DEFAULT_CONTEXT m in
        if has_context m (activeContextId m) then m
        else set_storage (<[activeContextId m := []]> (storage m)) m
  end.

(** *** Context management *)

Definition getActiveContextId (m : BookmarkManager) : string := activeContextId m.

Definition createContext (newContextId : string) (m : BookmarkManager)
  : BookmarkManager * bool :=
  if has_context m newContextId || String.eqb newContextId "" then (m, false)
  else (save (set_storage (<[newContextId := []]> (storage m)) m), true).

Definition switchContext (contextId : string) (m : BookmarkManager)
  : BookmarkManager * bool :=
  if negb (has_context m contextId) then (m, false)
  else (save (set_cursor (-1) (set_active contextId m)), true).

Module Outcome.
Inductive t := success | not_found | active | last.
End Outcome.

Definition deleteContext (contextId : string) (m : BookmarkManager)
  : BookmarkManager * Outcome.t :=
  if negb (has_context m contextId) then (m, Outcome.not_found)
  else if String.eqb contextId (activeContextId m) then (m, Outcome.active)
  else if (size (storage m) <=? 1)%nat then (m, Outcome.last)
  else (save (set_storage (delete contextId (storage m)) m), Outcome.success).

(** *** Bookmark operations *)

Definition getBookmarks (m : BookmarkManager) : list Bookmark :=
  default [] (storage m !! activeContextId m).

(** Writing through the array that [getBookmarks] returned: the stored array
    when the active context exists, a temporary [[]] otherwise. *)
Definition mutate_bookmarks (bs : list Bookmark) (m : BookmarkManager)
  : BookmarkManager :=
  if has_context m (activeContextId m)
  then set_storage (<[activeContextId m := bs]> (storage m)) m
  else m.

Definition addBookmark (uuid fsPath0 : string) (lineNumber0 : Z) (label0 : string)
    (m : BookmarkManager) : BookmarkManager :=
  let newBookmark := mkBookmark uuid fsPath0 lineNumber0 label0 in
  save (mutate_bookmarks (push newBookmark (getBookmarks m)) m).

Definition removeBookmark (bookmarkId : string) (m : BookmarkManager)
  : BookmarkManager :=
  let bookmarks := getBookmarks m in
  let oldIndex := findIndex (fun b => String.eqb (id b) bookmarkId) bookmarks in
  let m := set_storage
             (<[activeContextId m :=
                  List.filter (fun b => negb (String.eqb (id b) bookmarkId)) bookmarks]>
                (storage m)) m in
  let m :=
    if oldIndex <? currentBookmarkIndex m
    then set_cursor (currentBookmarkIndex m - 1) m
    else if currentBookmarkIndex m =? oldIndex then set_cursor (-1) m
    else m in
  save m.

Definition clearAllBookmarks (m : BookmarkManager) : BookmarkManager :=
  save (set_cursor (-1) (set_storage (<[activeContextId m := []]> (storage m)) m)).

Definition reorderBookmarks (draggedBookmark : Bookmark)
    (targetBookmark : option Bookmark) (m : BookmarkManager) : BookmarkManager :=
  let bookmarks := getBookmarks m in
  let sourceIndex :=
    findIndex (fun b => String.eqb (id b) (id draggedBookmark)) bookmarks in
  if sourceIndex =? -1 then m
  else
    match at_index bookmarks sourceIndex with
    | None => m (* not reached: [sourceIndex] is inside the array *)
    | Some removed =>
        let bookmarks := splice_out sourceIndex bookmarks in
        let '(bookmarks, newIndex) :=
          match targetBookmark with
          | Some target =>
              let targetIndex :=
                findIndex (fun b => String.eqb (id b) (id target)) bookmarks in
              if negb (targetIndex =? -1)
              then (splice_in targetIndex removed bookmarks, targetIndex)
              else let bookmarks := push removed bookmarks in
                   (bookmarks, length_Z bookmarks - 1)
          | None =>
              let bookmarks := push removed bookmarks in
              (bookmarks, length_Z bookmarks - 1)
          end in
        save (set_cursor newIndex (mutate_bookmarks bookmarks m))
    end.

(** *** Navigation *)

Definition setCurrentBookmarkById (bookmarkId : option string)
    (m : BookmarkManager) : BookmarkManager :=
  match bookmarkId with
  | None => set_cursor (-1) m
  | Some bid =>
      if String.eqb bid "" then set_cursor (-1) m
      else set_cursor
             (findIndex (fun b => String.eqb (id b) bid) (getBookmarks m)) m
  end.

Definition getCurrentBookmark (m : BookmarkManager) : option Bookmark :=
  let bookmarks := getBookmarks m in
  if (currentBookmarkIndex m <? 0) || (length_Z bookmarks <=? currentBookmarkIndex m)
  then None
  else at_index bookmarks (currentBookmarkIndex m).

Definition getNextBookmark (m : BookmarkManager)
  : BookmarkManager * option Bookmark :=
  let bookmarks := getBookmarks m in
  if (length_Z bookmarks =? 0) || (length_Z bookmarks - 1 <=? currentBookmarkIndex m)
  then (m, None)
  else
    let m := set_cursor (currentBookmarkIndex m + 1) m in
    (m, at_index bookmarks (currentBookmarkIndex m)).

Definition getPreviousBookmark (m : BookmarkManager)
  : BookmarkManager * option Bookmark :=
  let bookmarks := getBookmarks m in
  if (length_Z bookmarks =? 0) || (currentBookmarkIndex m <=? 0)
  then (m, None)
  else
    let m := set_cursor (currentBookmarkIndex m - 1) m in
    (m, at_index bookmarks (currentBookmarkIndex m)).

(** ** The edit reconciler *)

(** *** The editor types the reconciler reads

    Modelled from the VS Code API ([vscode.Position], [vscode.Range],
    [vscode.TextDocument]), which the repository imports: positions compare by
    line, then character; [Range.contains] holds for a position that is
    neither before the start nor after the end. *)

Record Position := mkPos { line : Z; character : Z }.

(** [new vscode.Position(line, character)] throws on a negative argument. *)
Definition newPosition (l c : Z) : option Position :=
  if (l <? 0) || (c <? 0) then None else Some (mkPos l c).

Definition isBefore (p q : Position) : bool :=
  (line p <? line q) || ((line p =? line q) && (character p <? character q)).

Record Range := mkRange { range_start : Position; range_end : Position }.

Definition contains (r : Range) (p : Position) : bool :=
  negb (isBefore p (range_start r)) && negb (isBefore (range_end r) p).

Record ContentChange := mkChange { range : Range; text : string }.

(** A document: its path and the text of its lines. *)
Record TextDocument := mkDocument { uri_fsPath : string; lines : list string }.

Definition lineCount (d : TextDocument) : Z := length_Z (lines d).

(** [document.lineAt(i).text]; throws outside [0 .. lineCount - 1]. *)
Definition lineAt (d : TextDocument) (i : Z) : option string :=
  if (i <? 0) || (lineCount d <=? i) then None else lines d !! Z.to_nat i.

Record TextDocumentChangeEvent := mkEvent {
  document : TextDocument;
  contentChanges : list ContentChange
}.

(** [(text.match(/\n/g) || []).length] *)
Fixpoint countLineBreaks (s : string) : Z :=
  match s with
  | EmptyString => 0
  | String c s' =>
      (if Ascii.eqb c "010"%char then 1 else 0) + countLineBreaks s'
  end.

(** [String.prototype.trim] on strings of 8-bit code units: the white space
    and line terminators of ECMAScript in that range are U+0009..U+000D,
    U+0020 and U+00A0. *)
Definition isWhiteSpace (c : ascii) : bool :=
  let n := nat_of_ascii c in
  ((9 <=? n)%nat && (n <=? 13)%nat) || (n =? 32)%nat || (n =? 160)%nat.

Fixpoint trimStart (s : string) : string :=
  match s with
  | EmptyString => EmptyString
  | String c s' => if isWhiteSpace c then trimStart s' else s
  end.

Fixpoint trimEnd (s : string) : string :=
  match s with
  | EmptyString => EmptyString
  | String c s' =>
      match trimEnd s' with
      | EmptyString => if isWhiteSpace c then EmptyString else String c EmptyString
      | t => String c t
      end
  end.

Definition trim (s : string) : string := trimEnd (trimStart s).

(** *** The two sets of identifiers and the loops *)

Record Marks := mkMarks {
  changedBookmarks : gset string;
  deletedBookmarks : gset string
}.

Definition noMarks : Marks := mkMarks ∅ ∅.

Definition mark_changed (i : string) (k : Marks) : Marks :=
  mkMarks ({[i]} ∪ changedBookmarks k) (deletedBookmarks k).

Definition mark_deleted (i : string) (k : Marks) : Marks :=
  mkMarks (changedBookmarks k) ({[i]} ∪ deletedBookmarks k).

Definition is_deleted (k : Marks) (b : Bookmark) : bool :=
  bool_decide (id b ∈ deletedBookmarks k).

Definition set_lineNumber (n : Z) (b : Bookmark) : Bookmark :=
  mkBookmark (id b) (fsPath b) n (label b).

Definition set_label (s : string) (b : Bookmark) : Bookmark :=
  mkBookmark (id b) (fsPath b) (lineNumber b) s.

(** How a loop body ends: normally, or by an exception that leaves the loops. *)
Inductive Flow := Continue | Abort.

Definition lineDelta (change : ContentChange) : Z :=
  let linesAdded := countLineBreaks (text change) in
  let linesRemoved :=
    line (range_end (range change)) - line (range_start (range change)) in
  linesAdded - linesRemoved.

(** Body of the inner loop: one edit against one bookmark of the file. *)
Definition visitChange (change : ContentChange) (bookmark : Bookmark) (k : Marks)
  : Bookmark * Marks * Flow :=
  if is_deleted k bookmark then (bookmark, k, Continue)
  else
    let bookmarkLine := lineNumber bookmark - 1 in
    if line (range_end (range change)) <? bookmarkLine then
      (set_lineNumber (lineNumber bookmark + lineDelta change) bookmark,
       mark_changed (id bookmark) k, Continue)
    else
      match newPosition bookmarkLine 0 with
      | None => (bookmark, k, Abort)
      | Some p =>
          if contains (range change) p
          then (bookmark, mark_deleted (id bookmark) k, Continue)
          else (bookmark, k, Continue)
      end.

(** Body of the label loop. *)
Definition visitLabel (d : TextDocument) (bookmark : Bookmark) (k : Marks)
  : Bookmark * Marks * Flow :=
  if lineNumber bookmark - 1 <? lineCount d then
    match lineAt d (lineNumber bookmark - 1) with
    | None => (bookmark, k, Abort)
    | Some t =>
        let currentLineText := trim t in
        if negb (String.eqb (label bookmark) currentLineText)
        then (set_label currentLineText bookmark, mark_changed (id bookmark) k, Continue)
        else (bookmark, k, Continue)
    end
  else (bookmark, k, Continue).

(** [for (const bookmark of arr.filter(sel)) body]: the selected elements of
    the array are visited in order and updated in place; an exception stops
    the traversal where it is. *)
Fixpoint forEachSelected (sel : Bookmark -> bool)
    (body : Bookmark -> Marks -> Bookmark * Marks * Flow)
    (bs : list Bookmark) (k : Marks) : list Bookmark * Marks * Flow :=
  match bs with
  | [] => ([], k, Continue)
  | b :: rest =>
      if sel b then
        match body b k with
        | (b', k', Continue) =>
            let '(rest', k'', f) := forEachSelected sel body rest k' in
            (b' :: rest', k'', f)
        | (b', k', Abort) => (b' :: rest, k', Abort)
        end
      else
        let '(rest', k', f) := forEachSelected sel body rest k in
        (b :: rest', k', f)
  end.

(** [for (const change of event.contentChanges) ...] *)
Fixpoint forEachChange (sel : Bookmark -> bool) (changes : list ContentChange)
    (bs : list Bookmark) (k : Marks) : list Bookmark * Marks * Flow :=
  match changes with
  | [] => (bs, k, Continue)
  | change :: more =>
      match forEachSelected sel (visitChange change) bs k with
      | (bs', k', Continue) => forEachChange sel more bs' k'
      | aborted => aborted
      end
  end.

Inductive Completion := Returned (changed : bool) | Threw.

Definition inFile (path : string) (b : Bookmark) : bool := String.eqb (fsPath b) path.

Definition handleTextDocumentChange (event : TextDocumentChangeEvent)
    (m : BookmarkManager) : BookmarkManager * Completion :=
  let path := uri_fsPath (document event) in
  let bookmarks := getBookmarks m in
  let affectedBookmarks := List.filter (inFile path) bookmarks in
  if length_Z affectedBookmarks =? 0 then (m, Returned false)
  else
    let '(bookmarks, k, f) :=
      forEachChange (inFile path) (contentChanges event) bookmarks noMarks in
    let m := mutate_bookmarks bookmarks m in
    match f with
    | Abort => (m, Threw)
    | Continue =>
        let m :=
          if (0 <? size (deletedBookmarks k))%nat
          then set_storage
                 (<[activeContextId m :=
                      List.filter (fun b => negb (is_deleted k b)) bookmarks]>
                    (storage m)) m
          else m in
        let '(relabelled, k, f) :=
          forEachSelected (fun b => inFile path b && negb (is_deleted k b))
            (visitLabel (document event)) (getBookmarks m) k in
        let m := mutate_bookmarks relabelled m in
        match f with
        | Abort => (m, Threw)
        | Continue =>
            if (0 <? size (changedBookmarks k))%nat
               || (0 <? size (deletedBookmarks k))%nat
            then (save m, Returned true)
            else (m, Returned false)
        end
    end.

(** The loops of [handleTextDocumentChange] seen from the array of the active
    context alone: the edit loops, the removal of the bookmarks marked as
    deleted, the label loop.  [handleTextDocumentChange_reconcile] below
    relates it to the method. *)
Definition reconcile (event : TextDocumentChangeEvent) (bookmarks : list Bookmark)
  : list Bookmark * Marks * Flow :=
  let path := uri_fsPath (document event) in
  match forEachChange (inFile path) (contentChanges event) bookmarks noMarks with
  | (bookmarks, k, Abort) => (bookmarks, k, Abort)
  | (bookmarks, k, Continue) =>
      let remaining :=
        if (0 <? size (deletedBookmarks k))%nat
        then List.filter (fun b => negb (is_deleted k b)) bookmarks
        else bookmarks in
      forEachSelected (fun b => inFile path b && negb (is_deleted k b))
        (visitLabel (document event)) remaining k
  end.

(** The visits a traversal makes: every selected bookmark as it stands when
    the body reaches it, with the two sets as they are at that moment. *)
Fixpoint visited (sel : Bookmark -> bool)
    (body : Bookmark -> Marks -> Bookmark * Marks * Flow)
    (bs : list Bookmark) (k : Marks) : list (Bookmark * Marks) :=
  match bs with
  | [] => []
  | b :: rest =>
      if sel b then
        (b, k) :: match body b k with
                  | (_, k', Continue) => visited sel body rest k'
                  | (_, _, Abort) => []
                  end
      else visited sel body rest k
  end.

(** The visits of the edit loops: edit, bookmark, sets. *)
Fixpoint batchVisited (sel : Bookmark -> bool) (changes : list ContentChange)
    (bs : list Bookmark) (k : Marks) : list (ContentChange * Bookmark * Marks) :=
  match changes with
  | [] => []
  | change :: more =>
      ((fun v : Bookmark * Marks => (change, fst v, snd v))
         <$> visited sel (visitChange change) bs k)
      ++ match forEachSelected sel (visitChange change) bs k with
         | (bs', k', Continue) => batchVisited sel more bs' k'
         | (_, _, Abort) => []
         end
  end.

Definition editsVisited (event : TextDocumentChangeEvent) (bs : list Bookmark)
  : list (ContentChange * Bookmark * Marks) :=
  batchVisited (inFile (uri_fsPath (document event))) (contentChanges event)
    bs noMarks.

Definition labelsVisited (event : TextDocumentChangeEvent) (bs : list Bookmark)
  : list (Bookmark * Marks) :=
  let path := uri_fsPath (document event) in
  match forEachChange (inFile path) (contentChanges event) bs noMarks with
  | (bookmarks, k, Continue) =>
      let remaining :=
        if (0 <? size (deletedBookmarks k))%nat
        then List.filter (fun b => negb (is_deleted k b)) bookmarks
        else bookmarks in
      visited (fun b => inFile path b && negb (is_deleted k b))
        (visitLabel (document event)) remaining k
  | (_, _, Abort) => []
  end.

(** The three things a visit can do to a bookmark. *)
Definition shifts (change : ContentChange) (b : Bookmark) (k : Marks) : Prop :=
  (id b ∉ deletedBookmarks k) /\
  line (range_end (range change)) < lineNumber b - 1.

Definition deletes (change : ContentChange) (b : Bookmark) (k : Marks) : Prop :=
  (id b ∉ deletedBookmarks k) /\
  lineNumber b - 1 <= line (range_end (range change)) /\
  0 <= lineNumber b - 1 /\
  contains (range change) (mkPos (lineNumber b - 1) 0) = true.

Definition relabels (d : TextDocument) (b : Bookmark) : Prop :=
  exists t, lineAt d (lineNumber b - 1) = Some t /\ label b <> trim t.

Definition marks_le (k k' : Marks) : Prop :=
  changedBookmarks k ⊆ changedBookmarks k' /\
  deletedBookmarks k ⊆ deletedBookmarks k'.

Definition marks_empty (k : Marks) : Prop :=
  changedBookmarks k = ∅ /\ deletedBookmarks k = ∅.

(** A range as the editor builds it: non-negative lines, start not after end. *)
Definition range_ok (r : Range) : Prop :=
  0 <= line (range_start r) <= line (range_end r).

(** What a traversal keeps of a bookmark: its identity and file, and the
    whole bookmark once its identifier is in the deleted set [k]. *)
Definition kept (k : Marks) (b b' : Bookmark) : Prop :=
  id b' = id b /\ fsPath b' = fsPath b /\
  (id b ∈ deletedBookmarks k -> b' = b).

Definition positive_lines (path : string) (bs : list Bookmark) : Prop :=
  Forall (fun b => inFile path b = true -> 1 <= lineNumber b) bs.

(** ** Concrete stores used in examples *)

Definition bookmarkAt (i : string) (n : Z) : Bookmark := mkBookmark i "/src/app.ts" n i.

Definition storeOf (bs : list Bookmark) (cursor : Z) : BookmarkManager :=
  mkManager {[DEFAULT_CONTEXT := bs]} DEFAULT_CONTEXT cursor emptyMemento.

Definition twoContexts (bs : list Bookmark) (cursor : Z) : BookmarkManager :=
  mkManager (<["work" := [bookmarkAt "W" 3]]> {[DEFAULT_CONTEXT := bs]})
            DEFAULT_CONTEXT cursor emptyMemento.

(** A document of the file of [bookmarkAt], every line of which reads [t]. *)
Definition uniformDocument (n : nat) (t : string) : TextDocument :=
  mkDocument "/src/app.ts" (replicate n t).

Definition LF : string := String "010"%char EmptyString.

(** Two lines inserted at the start of line 2: start = end = (1, 0). *)
Definition insertTwoLines : ContentChange :=
  mkChange (mkRange (mkPos 1 0) (mkPos 1 0)) ("x" +:+ LF +:+ "x" +:+ LF).

(** Lines 4 to 6 (0-based) replaced by nothing. *)
Definition cutLines4to6 : ContentChange :=
  mkChange (mkRange (mkPos 4 0) (mkPos 6 0)) "".

(** One character typed over on line 2: no line break added or removed. *)
Definition retypeOnLine2 : ContentChange :=
  mkChange (mkRange (mkPos 1 0) (mkPos 1 1)) "y".

(** The document after [retypeOnLine2]: line 5 still reads "A". *)
Definition documentAfterRetype : TextDocument :=
  mkDocument "/src/app.ts" ("A" :: "y" :: replicate 10 "A").

(** [m'] differs from [m] at most in the active context's sequence, the
    cursor and the persisted copy. *)
Definition elsewhere (m m' : BookmarkManager) : Prop :=
  activeContextId m' = activeContextId m /\
  forall k, k <> activeContextId m -> storage m' !! k = storage m !! k.

(** ** Store invariants of the data model *)

(** The cursor is unset or indexes a bookmark of the active context. *)
Definition cursor_valid (m : BookmarkManager) : Prop :=
  -1 <= currentBookmarkIndex m < length_Z (getBookmarks m).

(** Identifiers are unique within the active context. *)
Definition unique_ids (bs : list Bookmark) : Prop := NoDup (id <$> bs).

Definition has_id (i : string) (b : Bookmark) : bool := String.eqb (id b) i.

(** ** The callers in src/extension.ts *)


(** ** The single-context manager (the first [BookmarkManager] of
    src/bookmarkManager.ts): one array under the key 'bookmarks' *)

Module SingleContext.

Record Manager := mk {
  bookmarks : list Bookmark;
  currentBookmarkIndex : Z;
  workspaceState : Memento
}.

Definition set_bookmarks (bs : list Bookmark) (o : Manager) : Manager :=
  mk bs (currentBookmarkIndex o) (workspaceState o).

Definition set_cursor (i : Z) (o : Manager) : Manager :=
  mk (bookmarks o) i (workspaceState o).

(** The constructor: [workspaceState.get('bookmarks', [])]. *)
Definition create (ws : Memento) : Manager :=
  mk (default [] (ws_bookmarks ws)) (-1) ws.

Definition save (o : Manager) : Manager :=
  mk (bookmarks o) (currentBookmarkIndex o)
     (mkMemento (Some (bookmarks o))
                (ws_bookmark_storage (workspaceState o))
                (ws_bookmark_active_context (workspaceState o))).

Definition getBookmarks (o : Manager) : list Bookmark := bookmarks o.

Definition handleTextDocumentChange (event : TextDocumentChangeEvent)
    (o : Manager) : Manager * Completion :=
  let path := uri_fsPath (document event) in
  let affectedBookmarks := List.filter (inFile path) (bookmarks o) in
  if length_Z affectedBookmarks =? 0 then (o, Returned false)
  else
    let '(bs, k, f) :=
      forEachChange (inFile path) (contentChanges event) (bookmarks o) noMarks in
    let o := set_bookmarks bs o in
    match f with
    | Abort => (o, Threw)
    | Continue =>
        let o :=
          if (0 <? size (deletedBookmarks k))%nat
          then set_bookmarks
                 (List.filter (fun b => negb (is_deleted k b)) (bookmarks o)) o
          else o in
        let '(relabelled, k, f) :=
          forEachSelected (fun b => inFile path b && negb (is_deleted k b))
            (visitLabel (document event)) (bookmarks o) k in
        let o := set_bookmarks relabelled o in
        match f with
        | Abort => (o, Threw)
        | Continue =>
            if (0 <? size (changedBookmarks k))%nat
               || (0 <? size (deletedBookmarks k))%nat
            then (save o, Returned true)
            else (o, Returned false)
        end
    end.

Definition addBookmark (uuid fsPath0 : string) (lineNumber0 : Z) (label0 : string)
    (o : Manager) : Manager :=
  let newBookmark := mkBookmark uuid fsPath0 lineNumber0 label0 in
  save (set_bookmarks (push newBookmark (bookmarks o)) o).

Definition removeBookmark (bookmarkId : string) (o : Manager) : Manager :=
  let oldIndex :=
    findIndex (fun b => String.eqb (id b) bookmarkId) (bookmarks o) in
  let o := set_bookmarks
             (List.filter (fun b => negb (String.eqb (id b) bookmarkId))
                (bookmarks o)) o in
  let o :=
    if oldIndex <? currentBookmarkIndex o
    then set_cursor (currentBookmarkIndex o - 1) o
    else if currentBookmarkIndex o =? oldIndex then set_cursor (-1) o
    else o in
  save o.

Definition clearAllBookmarks (o : Manager) : Manager :=
  save (set_cursor (-1) (set_bookmarks [] o)).

Definition reorderBookmarks (draggedBookmark : Bookmark)
    (targetBookmark : option Bookmark) (o : Manager) : Manager :=
  let sourceIndex :=
    findIndex (fun b => String.eqb (id b) (id draggedBookmark)) (bookmarks o) in
  if sourceIndex =? -1 then o
  else
    match at_index (bookmarks o) sourceIndex with
    | None => o (* not reached: [sourceIndex] is inside the array *)
    | Some removed =>
        let bs := splice_out sourceIndex (bookmarks o) in
        let '(bs, newIndex) :=
          match targetBookmark with
          | Some target =>
              let targetIndex :=
                findIndex (fun b => String.eqb (id b) (id target)) bs in
              if negb (targetIndex =? -1)
              then (splice_in targetIndex removed bs, targetIndex)
              else let bs := push removed bs in (bs, length_Z bs - 1)
          | None => let bs := push removed bs in (bs, length_Z bs - 1)
          end in
        save (set_cursor newIndex (set_bookmarks bs o))
    end.

Definition setCurrentBookmarkById (bookmarkId : option string) (o : Manager)
  : Manager :=
  match bookmarkId with
  | None => set_cursor (-1) o
  | Some bid =>
      if String.eqb bid "" then set_cursor (-1) o
      else set_cursor
             (findIndex (fun b => String.eqb (id b) bid) (bookmarks o)) o
  end.

Definition getCurrentBookmark (o : Manager) : option Bookmark :=
  if (currentBookmarkIndex o <? 0)
     || (length_Z (bookmarks o) <=? currentBookmarkIndex o)
  then None
  else at_index (bookmarks o) (currentBookmarkIndex o).

Definition getNextBookmark (o : Manager) : Manager * option Bookmark :=
  if length_Z (bookmarks o) =? 0 then (o, None)
  else if currentBookmarkIndex o =? length_Z (bookmarks o) - 1 then (o, None)
  else
    let o := set_cursor (currentBookmarkIndex o + 1) o in
    (o, at_index (bookmarks o) (currentBookmarkIndex o)).

Definition getPreviousBookmark (o : Manager) : Manager * option Bookmark :=
  if length_Z (bookmarks o) =? 0 then (o, None)
  else if currentBookmarkIndex o <=? 0 then (o, None)
  else
    let o := set_cursor (currentBookmarkIndex o - 1) o in
    (o, at_index (bookmarks o) (currentBookmarkIndex o)).

End SingleContext.

(** ** More store invariants *)

(** The active context id names a context of the store. *)
Definition active_exists (m : BookmarkManager) : Prop :=
  is_Some (storage m !! activeContextId m).

(** The two persisted keys hold the in-memory contexts and active id. *)
Definition persisted (m : BookmarkManager) : Prop :=
  ws_bookmark_storage (workspaceState m) = Some (storage m) /\
  ws_bookmark_active_context (workspaceState m) = Some (activeContextId m).

(** No old-format entry is waiting to be migrated. *)
Definition no_legacy (ws : Memento) : Prop :=
  ws_bookmarks ws = None \/ ws_bookmarks ws = Some [].

(** What a restart finds: the contexts and the active id of [m]. *)
Definition reloads (m : BookmarkManager) : Prop :=
  storage (load (workspaceState m)) = storage m /\
  activeContextId (load (workspaceState m)) = activeContextId m /\
  currentBookmarkIndex (load (workspaceState m)) = -1.

(** The single-context manager and the context-aware one show the same
    sequence and cursor. *)
Definition same_view (o : SingleContext.Manager) (m : BookmarkManager) : Prop :=
  SingleContext.bookmarks o = getBookmarks m /\
  SingleContext.currentBookmarkIndex o = currentBookmarkIndex m.

(** What reconciliation never changes of a bookmark. *)
Definition same_identity (b b' : Bookmark) : Prop :=
  id b' = id b /\ fsPath b' = fsPath b.

(** A pass over the bookmarks of [path]: identity kept, other files spared. *)
Definition pass_over (path : string) (b b' : Bookmark) : Prop :=
  same_identity b b' /\ (inFile path b = false -> b' = b).

(** * Properties *)

(** ** Arrays *)

Section FindIndex.
Context {A : Type} (p : A -> bool).

Lemma findIndex_bounds (l : list A) : -1 <= findIndex p l < length_Z l.
Proof.
  unfold length_Z. induction l as [|x l IH]; simpl; [lia|].
  destruct (p x); [lia|].
  destruct (Z.ltb_spec (findIndex p l) 0); lia.
Qed.

Lemma findIndex_absent (l : list A) :
  Forall (fun x => p x = false) l -> findIndex p l = -1.
Proof.
  induction 1 as [|x l Hx _ IH]; simpl; [done|].
  by rewrite Hx, IH.
Qed.

Lemma findIndex_absent_inv (l : list A) :
  findIndex p l = -1 -> Forall (fun x => p x = false) l.
Proof.
  induction l as [|x l IH]; simpl; [constructor|].
  destruct (p x) eqn:Hx; [lia|].
  pose proof (findIndex_bounds l).
  destruct (Z.ltb_spec (findIndex p l) 0); [|lia].
  intros _. constructor; [done|]. apply IH. lia.
Qed.

(** The first element satisfying [p] is the one that is found. *)
Lemma findIndex_first (pre post : list A) (x : A) :
  Forall (fun y => p y = false) pre -> p x = true ->
  findIndex p (pre ++ x :: post) = length_Z pre.
Proof.
  unfold length_Z. intros Hpre Hx.
  induction Hpre as [|y pre Hy _ IH]; simpl.
  - by rewrite Hx.
  - rewrite Hy, IH. destruct (Z.ltb_spec (Z.of_nat (length pre)) 0); lia.
Qed.

(** Conversely a found index splits the array at the first match. *)
Lemma findIndex_found (l : list A) :
  0 <= findIndex p l ->
  exists pre x post,
    l = pre ++ x :: post /\ Forall (fun y => p y = false) pre /\
    p x = true /\ findIndex p l = length_Z pre.
Proof.
  unfold length_Z. induction l as [|y l IH]; simpl; [lia|].
  destruct (p y) eqn:Hy.
  - intros _. by exists [], y, l.
  - destruct (Z.ltb_spec (findIndex p l) 0); [lia|]. intros _.
    destruct IH as (pre & x & post & -> & Hpre & Hx & Hi); [lia|].
    exists (y :: pre), x, post. repeat split; auto.
    rewrite Hi. simpl length. lia.
Qed.

Lemma filter_absent (l : list A) :
  Forall (fun x => p x = false) l -> List.filter (fun x => negb (p x)) l = l.
Proof.
  induction 1 as [|x l Hx _ IH]; simpl; [done|].
  by rewrite Hx, IH.
Qed.
End FindIndex.

Lemma at_index_nat {A : Type} (l : list A) (n : nat) :
  at_index l (Z.of_nat n) = l !! n.
Proof.
  unfold at_index. destruct (Z.ltb_spec (Z.of_nat n) 0); [lia|].
  by rewrite Nat2Z.id.
Qed.

Lemma at_index_middle {A : Type} (pre post : list A) (x : A) :
  at_index (pre ++ x :: post) (length_Z pre) = Some x.
Proof. unfold length_Z. rewrite at_index_nat. by apply list_lookup_middle. Qed.

Lemma splice_out_middle {A : Type} (pre post : list A) (x : A) :
  splice_out (length_Z pre) (pre ++ x :: post) = pre ++ post.
Proof.
  unfold splice_out, length_Z. rewrite Nat2Z.id.
  induction pre as [|y pre IH]; simpl; [done|]. by f_equal.
Qed.


(** ** The store: elementary facts *)

Lemma has_context_true (m : BookmarkManager) (k : string) :
  has_context m k = true <-> is_Some (storage m !! k).
Proof. unfold has_context. apply bool_decide_eq_true. Qed.

Lemma has_context_false (m : BookmarkManager) (k : string) :
  has_context m k = false <-> storage m !! k = None.
Proof.
  unfold has_context. rewrite bool_decide_eq_false.
  by rewrite eq_None_not_Some.
Qed.

Lemma getBookmarks_set (m : BookmarkManager) (bs : list Bookmark) :
  getBookmarks (set_storage (<[activeContextId m := bs]> (storage m)) m) = bs.
Proof. unfold getBookmarks; simpl. by rewrite lookup_insert_eq. Qed.

Lemma mutate_bookmarks_same (m : BookmarkManager) :
  mutate_bookmarks (getBookmarks m) m = m.
Proof.
  unfold mutate_bookmarks, getBookmarks.
  destruct (has_context m (activeContextId m)) eqn:H; [|done].
  apply has_context_true in H as [bs Hbs]. rewrite Hbs; simpl.
  rewrite insert_id by done. by destruct m.
Qed.

Lemma getBookmarks_mutate (m : BookmarkManager) (bs : list Bookmark) :
  getBookmarks m <> [] -> getBookmarks (mutate_bookmarks bs m) = bs.
Proof.
  intros Hne. unfold mutate_bookmarks.
  destruct (has_context m (activeContextId m)) eqn:H.
  - apply getBookmarks_set.
  - apply has_context_false in H. unfold getBookmarks in Hne.
    rewrite H in Hne. done.
Qed.

(** ** C1: outcomes of deleteContext *)




(** ** Removal of a bookmark *)

Lemma unique_ids_split (bs : list Bookmark) (i : nat) (b : Bookmark) :
  unique_ids bs -> bs !! i = Some b ->
  exists pre post,
    bs = pre ++ b :: post /\ length pre = i /\
    Forall (fun y => has_id (id b) y = false) pre /\
    Forall (fun y => has_id (id b) y = false) post.
Proof.
  unfold unique_ids. intros Hnd Hi.
  exists (take i bs), (drop (S i) bs).
  pose proof (take_drop_middle bs i b Hi) as Hsplit.
  rewrite <- Hsplit in Hnd.
  rewrite fmap_app, fmap_cons in Hnd.
  apply NoDup_app in Hnd as (_ & Hpre & Hpost).
  apply NoDup_cons in Hpost as [Hpost _].
  assert (Hlen : length (take i bs) = i).
  { apply length_take_le. apply lookup_lt_Some in Hi. lia. }
  repeat split; [done | done | |].
  - apply Forall_forall. intros y Hy. unfold has_id.
    apply String.eqb_neq. intros Heq.
    apply (Hpre (id y)); [by apply list_elem_of_fmap_2 | rewrite Heq; left].
  - apply Forall_forall. intros y Hy. unfold has_id.
    apply String.eqb_neq. intros Heq.
    apply Hpost. rewrite <- Heq. by apply list_elem_of_fmap_2.
Qed.

Lemma filter_out_middle (i : string) (pre post : list Bookmark) (b : Bookmark) :
  Forall (fun y => has_id i y = false) pre ->
  Forall (fun y => has_id i y = false) post ->
  has_id i b = true ->
  List.filter (fun y => negb (has_id i y)) (pre ++ b :: post) = pre ++ post.
Proof.
  intros Hpre Hpost Hb.
  rewrite List.filter_app; simpl. rewrite Hb; simpl.
  by rewrite !filter_absent.
Qed.

Lemma filter_out_no_id (i : string) (bs : list Bookmark) (c : Bookmark) :
  c ∈ List.filter (fun y => negb (has_id i y)) bs -> id c <> i.
Proof.
  rewrite list_elem_of_In, List.filter_In. intros [_ H].
  apply negb_true_iff in H. by apply String.eqb_neq.
Qed.

Lemma getBookmarks_removeBookmark (bid : string) (m : BookmarkManager) :
  getBookmarks (removeBookmark bid m)
  = List.filter (fun y => negb (has_id bid y)) (getBookmarks m).
Proof.
  unfold removeBookmark.
  set (bs := getBookmarks m).
  set (m1 := set_storage _ m).
  assert (H1 : getBookmarks m1 = List.filter (fun y => negb (has_id bid y)) bs)
    by apply getBookmarks_set.
  cbv zeta.
  destruct (_ <? currentBookmarkIndex m1); [exact H1|].
  destruct (currentBookmarkIndex m1 =? _); exact H1.
Qed.

Lemma cursor_removeBookmark (bid : string) (m : BookmarkManager) :
  let oldIndex := findIndex (has_id bid) (getBookmarks m) in
  currentBookmarkIndex (removeBookmark bid m)
  = if oldIndex <? currentBookmarkIndex m then currentBookmarkIndex m - 1
    else if currentBookmarkIndex m =? oldIndex then -1
    else currentBookmarkIndex m.
Proof.
  unfold removeBookmark; cbv zeta; simpl.
  fold (has_id bid).
  destruct (_ <? currentBookmarkIndex m); [done|].
  by destruct (currentBookmarkIndex m =? _).
Qed.

Lemma getCurrentBookmark_elem (m : BookmarkManager) (c : Bookmark) :
  getCurrentBookmark m = Some c -> c ∈ getBookmarks m.
Proof.
  unfold getCurrentBookmark, at_index.
  destruct (_ || _); [done|].
  destruct (_ <? 0); [done|]. apply list_elem_of_lookup_2.
Qed.

(** What [removeBookmark] does when no bookmark of the active context has the
    identifier: the sequence stays as it is, but a set cursor moves back. *)
Lemma removeBookmark_absent (bid : string) (m : BookmarkManager) :
  Forall (fun b => id b <> bid) (getBookmarks m) ->
  getBookmarks (removeBookmark bid m) = getBookmarks m /\
  activeContextId (removeBookmark bid m) = activeContextId m /\
  currentBookmarkIndex (removeBookmark bid m)
  = if 0 <=? currentBookmarkIndex m then currentBookmarkIndex m - 1
    else currentBookmarkIndex m.
Proof.
  intros Habs.
  assert (Hno : Forall (fun b => has_id bid b = false) (getBookmarks m)).
  { eapply Forall_impl; [exact Habs|]. intros b Hb. by apply String.eqb_neq. }
  split; [|split].
  - rewrite getBookmarks_removeBookmark. by apply filter_absent.
  - unfold removeBookmark; cbv zeta.
    destruct (_ <? _); [done|]. by destruct (_ =? _).
  - rewrite cursor_removeBookmark; cbv zeta.
    rewrite (findIndex_absent _ _ Hno).
    destruct (Z.ltb_spec (-1) (currentBookmarkIndex m));
      destruct (Z.leb_spec 0 (currentBookmarkIndex m)); try lia.
    destruct (Z.eqb_spec (currentBookmarkIndex m) (-1)); lia.
Qed.

(** C3: the claim says that removing an identifier the active context does
    not hold leaves the cursor unchanged.  Here the cursor points at the
    second bookmark, the identifier "Z" is absent, and after the call the
    cursor points at the first bookmark: [removeBookmark] compares the cursor
    with the [-1] that [findIndex] returned. *)
Theorem removeBookmark_absent_id_moves_cursor :
  let m := storeOf [bookmarkAt "A" 5; bookmarkAt "B" 10] 1 in
  Forall (fun b => id b <> "Z") (getBookmarks m) /\
  getCurrentBookmark m = Some (bookmarkAt "B" 10) /\
  getBookmarks (removeBookmark "Z" m) = getBookmarks m /\
  currentBookmarkIndex (removeBookmark "Z" m) = 0 /\
  getCurrentBookmark (removeBookmark "Z" m) = Some (bookmarkAt "A" 5).
Proof.
  cbv zeta. split; [|by vm_compute].
  repeat constructor; by vm_compute.
Qed.

(** C6: when [removeBookmark bid] finds the bookmark at position [oldIndex]
    of the active context (identifiers being unique there), the sequence
    loses exactly that element; a cursor beyond [oldIndex] is decremented, a
    cursor on [oldIndex] becomes unset, a cursor before it stays; a cursor
    that was not on the removed bookmark still designates the bookmark it
    designated; and [getCurrentBookmark] right after the call never yields a
    bookmark with the removed identifier. *)
Theorem removeBookmark_present (bid : string) (m : BookmarkManager)
    (oldIndex : nat) (b : Bookmark) :
  unique_ids (getBookmarks m) ->
  getBookmarks m !! oldIndex = Some b ->
  id b = bid ->
  let m' := removeBookmark bid m in
  getBookmarks m' = delete oldIndex (getBookmarks m) /\
  (Z.of_nat oldIndex < currentBookmarkIndex m ->
     currentBookmarkIndex m' = currentBookmarkIndex m - 1) /\
  (currentBookmarkIndex m = Z.of_nat oldIndex ->
     currentBookmarkIndex m' = -1) /\
  (currentBookmarkIndex m < Z.of_nat oldIndex ->
     currentBookmarkIndex m' = currentBookmarkIndex m) /\
  (currentBookmarkIndex m <> Z.of_nat oldIndex ->
     getCurrentBookmark m' = getCurrentBookmark m) /\
  (forall c, getCurrentBookmark m' = Some c -> id c <> bid /\ c <> b).
Proof.
  intros Hu Hi Hid m'.
  destruct (unique_ids_split _ _ _ Hu Hi) as (pre & post & Hbs & Hlen & Hpre & Hpost).
  rewrite Hid in Hpre, Hpost.
  assert (Hb : has_id bid b = true) by (unfold has_id; rewrite Hid; apply String.eqb_refl).
  assert (Hidx : findIndex (has_id bid) (getBookmarks m) = Z.of_nat oldIndex).
  { rewrite Hbs, (findIndex_first _ pre post b Hpre Hb). unfold length_Z. by rewrite Hlen. }
  assert (Hseq : getBookmarks m' = delete oldIndex (getBookmarks m)).
  { unfold m'. rewrite getBookmarks_removeBookmark, Hbs.
    rewrite (filter_out_middle bid pre post b Hpre Hpost Hb).
    by rewrite <- Hlen, delete_middle. }
  assert (Hcur : currentBookmarkIndex m'
                 = if Z.of_nat oldIndex <? currentBookmarkIndex m
                   then currentBookmarkIndex m - 1
                   else if currentBookmarkIndex m =? Z.of_nat oldIndex then -1
                        else currentBookmarkIndex m).
  { unfold m'. rewrite cursor_removeBookmark; cbv zeta. by rewrite Hidx. }
  assert (Hlt : (oldIndex < length (getBookmarks m))%nat)
    by (by apply lookup_lt_Some in Hi).
  split; [exact Hseq|]. split; [|split; [|split; [|split]]].
  - intros H. rewrite Hcur. destruct (Z.ltb_spec (Z.of_nat oldIndex) (currentBookmarkIndex m)); lia.
  - intros H. rewrite Hcur, H, Z.ltb_irrefl, Z.eqb_refl. done.
  - intros H. rewrite Hcur.
    destruct (Z.ltb_spec (Z.of_nat oldIndex) (currentBookmarkIndex m)); [lia|].
    destruct (Z.eqb_spec (currentBookmarkIndex m) (Z.of_nat oldIndex)); lia.
  - intros Hne. unfold getCurrentBookmark, at_index, length_Z.
    rewrite Hseq, Hcur, length_delete by (by exists b).
    destruct (Z.ltb_spec (Z.of_nat oldIndex) (currentBookmarkIndex m)) as [Hgt|Hle].
    + destruct (Z.ltb_spec (currentBookmarkIndex m - 1) 0); [lia|].
      destruct (Z.ltb_spec (currentBookmarkIndex m) 0); [lia|]. simpl.
      destruct (Z.leb_spec (Z.of_nat (length (getBookmarks m) - 1)) (currentBookmarkIndex m - 1));
        destruct (Z.leb_spec (Z.of_nat (length (getBookmarks m))) (currentBookmarkIndex m));
        try lia; [done|].
      rewrite list_lookup_delete_ge by lia. f_equal. lia.
    + destruct (Z.eqb_spec (currentBookmarkIndex m) (Z.of_nat oldIndex)); [lia|].
      destruct (Z.ltb_spec (currentBookmarkIndex m) 0); [done|]. simpl.
      destruct (Z.leb_spec (Z.of_nat (length (getBookmarks m) - 1)) (currentBookmarkIndex m));
        destruct (Z.leb_spec (Z.of_nat (length (getBookmarks m))) (currentBookmarkIndex m));
        try lia.
      by rewrite list_lookup_delete_lt by lia.
  - intros c Hc. apply getCurrentBookmark_elem in Hc.
    unfold m' in Hc. rewrite getBookmarks_removeBookmark in Hc.
    apply filter_out_no_id in Hc. split; [done|]. congruence.
Qed.

Lemma removeBookmark_present_witness :
  getBookmarks
    (removeBookmark "A"
       (storeOf [bookmarkAt "A" 5; bookmarkAt "B" 10; bookmarkAt "C" 12] 2))
  = [bookmarkAt "B" 10; bookmarkAt "C" 12] /\
  currentBookmarkIndex
    (removeBookmark "A"
       (storeOf [bookmarkAt "A" 5; bookmarkAt "B" 10; bookmarkAt "C" 12] 2))
  = 1.
Proof.
  destruct (removeBookmark_present "A"
              (storeOf [bookmarkAt "A" 5; bookmarkAt "B" 10; bookmarkAt "C" 12] 2)
              0%nat (bookmarkAt "A" 5)) as (Hseq & Hgt & _).
  - unfold unique_ids. apply (bool_decide_unpack _). by vm_compute.
  - reflexivity.
  - reflexivity.
  - split; [exact Hseq | apply Hgt; vm_compute; reflexivity].
Defined.

(** ** Navigation *)

Lemma length_Z_zero {A : Type} (l : list A) : length_Z l = 0 <-> l = [].
Proof. unfold length_Z. destruct l; simpl; split; intros; try done; lia. Qed.




(** Navigation keeps the cursor unset or inside the sequence. *)
Lemma navigation_cursor_valid (m : BookmarkManager) :
  cursor_valid m ->
  cursor_valid (fst (getNextBookmark m)) /\
  cursor_valid (fst (getPreviousBookmark m)).
Proof.
  unfold cursor_valid, getNextBookmark, getPreviousBookmark. intros Hv.
  destruct (Z.eqb_spec (length_Z (getBookmarks m)) 0); simpl; [done|].
  destruct (Z.leb_spec (length_Z (getBookmarks m) - 1) (currentBookmarkIndex m));
    destruct (Z.leb_spec (currentBookmarkIndex m) 0); simpl;
    unfold getBookmarks in *; simpl; lia.
Qed.

(** The walk of the specification over A, B, C from an unset cursor, and back. *)
Example navigation_walk :
  let s0 := storeOf [bookmarkAt "A" 1; bookmarkAt "B" 2; bookmarkAt "C" 3] (-1) in
  let '(s1, r1) := getNextBookmark s0 in
  let '(s2, r2) := getNextBookmark s1 in
  let '(s3, r3) := getNextBookmark s2 in
  let '(s4, r4) := getNextBookmark s3 in
  let '(s5, r5) := getPreviousBookmark s4 in
  let '(s6, r6) := getPreviousBookmark s5 in
  let '(s7, r7) := getPreviousBookmark s6 in
  (fun r : option Bookmark => id <$> r) <$> [r1; r2; r3; r4; r5; r6; r7]
  = [Some "A"; Some "B"; Some "C"; None; Some "B"; Some "A"; None]
  /\ currentBookmarkIndex s4 = 2 /\ currentBookmarkIndex s7 = 0.
Proof. by vm_compute. Qed.

(** ** Reordering *)

Lemma no_id_has_id (i : string) (bs : list Bookmark) :
  Forall (fun b => id b <> i) bs <-> Forall (fun b => has_id i b = false) bs.
Proof.
  split; intros H; (eapply Forall_impl; [exact H|]); intros b; unfold has_id;
    by rewrite String.eqb_neq.
Qed.

Lemma getBookmarks_nonempty_has_context (m : BookmarkManager) :
  getBookmarks m <> [] -> has_context m (activeContextId m) = true.
Proof.
  intros Hne. destruct (has_context m (activeContextId m)) eqn:H; [done|].
  apply has_context_false in H. unfold getBookmarks in Hne.
  by rewrite H in Hne.
Qed.

(** The state [reorderBookmarks] reaches once the dragged bookmark is found. *)
Lemma reorderBookmarks_found (dragged : Bookmark) (target : option Bookmark)
    (m : BookmarkManager) (pre post : list Bookmark) (removed : Bookmark) :
  getBookmarks m = pre ++ removed :: post ->
  id removed = id dragged ->
  Forall (fun b => id b <> id dragged) pre ->
  forall bs' i,
    (bs', i) =
      match target with
      | Some t =>
          let targetIndex := findIndex (has_id (id t)) (pre ++ post) in
          if negb (targetIndex =? -1)
          then (splice_in targetIndex removed (pre ++ post), targetIndex)
          else (push removed (pre ++ post), length_Z (push removed (pre ++ post)) - 1)
      | None => (push removed (pre ++ post), length_Z (push removed (pre ++ post)) - 1)
      end ->
    reorderBookmarks dragged target m
    = save (set_cursor i (set_storage (<[activeContextId m := bs']> (storage m)) m)).
Proof.
  intros Hbs Hid Hpre bs' i Hres.
  unfold reorderBookmarks. fold (has_id (id dragged)).
  rewrite Hbs.
  rewrite (findIndex_first (has_id (id dragged)) pre post removed);
    [| by apply no_id_has_id | unfold has_id; rewrite Hid; apply String.eqb_refl].
  destruct (Z.eqb_spec (length_Z pre) (-1)) as [H|_];
    [unfold length_Z in H; lia|].
  rewrite at_index_middle, splice_out_middle.
  assert (Hmut : forall l, mutate_bookmarks l m
                 = set_storage (<[activeContextId m := l]> (storage m)) m).
  { intros l. unfold mutate_bookmarks.
    rewrite getBookmarks_nonempty_has_context; [done|].
    rewrite Hbs. by destruct pre. }
  destruct target as [t|].
  - fold (has_id (id t)). cbv zeta in Hres |- *.
    destruct (negb (_ =? -1)); inversion Hres; subst; by rewrite Hmut.
  - cbv zeta. inversion Hres; subst. by rewrite Hmut.
Qed.



(** ** The reconciler: one edit against one bookmark *)

Lemma marks_le_refl (k : Marks) : marks_le k k.
Proof. by split. Qed.

Lemma marks_le_trans (k1 k2 k3 : Marks) :
  marks_le k1 k2 -> marks_le k2 k3 -> marks_le k1 k3.
Proof. intros [] []. split; set_solver. Qed.

Lemma marks_le_empty (k k' : Marks) : marks_le k k' -> marks_empty k' -> marks_empty k.
Proof. intros [] []. split; set_solver. Qed.


Lemma is_deleted_false (k : Marks) (b : Bookmark) :
  is_deleted k b = false <-> id b ∉ deletedBookmarks k.
Proof. apply bool_decide_eq_false. Qed.

(** A range that contains a position does not end before it. *)
Lemma contains_not_above (r : Range) (l : Z) :
  contains r (mkPos l 0) = true -> ~ line (range_end r) < l.
Proof.
  unfold contains, isBefore; simpl. intros H Hlt.
  apply andb_true_iff in H as [_ H]. apply negb_true_iff in H.
  apply orb_false_iff in H as [H _]. apply Z.ltb_ge in H. lia.
Qed.

Lemma visitChange_shift (change : ContentChange) (b : Bookmark) (k : Marks) :
  is_deleted k b = false ->
  line (range_end (range change)) < lineNumber b - 1 ->
  visitChange change b k
  = (set_lineNumber (lineNumber b + lineDelta change) b,
     mark_changed (id b) k, Continue).
Proof.
  intros Hk Hlt. unfold visitChange. rewrite Hk.
  by apply Z.ltb_lt in Hlt as ->.
Qed.

Lemma visitChange_delete (change : ContentChange) (b : Bookmark) (k : Marks) :
  is_deleted k b = false -> 1 <= lineNumber b ->
  contains (range change) (mkPos (lineNumber b - 1) 0) = true ->
  visitChange change b k = (b, mark_deleted (id b) k, Continue).
Proof.
  intros Hk Hpos Hc. unfold visitChange. rewrite Hk.
  pose proof (contains_not_above _ _ Hc) as Hge.
  destruct (Z.ltb_spec (line (range_end (range change))) (lineNumber b - 1)); [lia|].
  unfold newPosition.
  destruct (Z.ltb_spec (lineNumber b - 1) 0); [lia|]. simpl. by rewrite Hc.
Qed.

Lemma visitChange_keep (change : ContentChange) (b : Bookmark) (k : Marks) :
  is_deleted k b = false -> 1 <= lineNumber b ->
  ~ line (range_end (range change)) < lineNumber b - 1 ->
  contains (range change) (mkPos (lineNumber b - 1) 0) = false ->
  visitChange change b k = (b, k, Continue).
Proof.
  intros Hk Hpos Hge Hc. unfold visitChange. rewrite Hk.
  destruct (Z.ltb_spec (line (range_end (range change))) (lineNumber b - 1)); [lia|].
  unfold newPosition.
  destruct (Z.ltb_spec (lineNumber b - 1) 0); [lia|]. simpl. by rewrite Hc.
Qed.


(** What every visit preserves, and what it records when it touches. *)
Lemma visitChange_frame (change : ContentChange) (b : Bookmark) (k : Marks)
    (b' : Bookmark) (k' : Marks) (f : Flow) :
  visitChange change b k = (b', k', f) ->
  id b' = id b /\ fsPath b' = fsPath b /\ label b' = label b /\
  marks_le k k' /\
  (id b ∈ deletedBookmarks k -> b' = b) /\
  ((b' = b /\ k' = k) \/ id b ∈ changedBookmarks k' \/ id b ∈ deletedBookmarks k').
Proof.
  unfold visitChange. destruct (is_deleted k b) eqn:Hk.
  { intros [= <- <- <-]. repeat split; auto. }
  apply is_deleted_false in Hk.
  destruct (_ <? _).
  { intros [= <- <- <-]. simpl. repeat split; try set_solver. }
  destruct (newPosition _ _).
  - destruct (contains _ _); intros [= <- <- <-]; simpl;
      repeat split; try set_solver; auto.
  - intros [= <- <- <-]. repeat split; auto.
Qed.

(** On a bookmark with a positive line number an edit with a well-formed
    range never raises, and it leaves the line number positive. *)
Lemma visitChange_total (change : ContentChange) (b : Bookmark) (k : Marks)
    (b' : Bookmark) (k' : Marks) (f : Flow) :
  range_ok (range change) -> 1 <= lineNumber b ->
  visitChange change b k = (b', k', f) ->
  f = Continue /\ 1 <= lineNumber b'.
Proof.
  unfold range_ok, visitChange. intros Hr Hpos.
  destruct (is_deleted k b); [by intros [= <- <- <-]|].
  destruct (Z.ltb_spec (line (range_end (range change))) (lineNumber b - 1)).
  { intros [= <- <- <-]. split; [done|]. simpl. unfold lineDelta.
    assert (0 <= countLineBreaks (text change)).
    { induction (text change) as [|c s IH]; simpl; [lia|].
      destruct (Ascii.eqb c _); lia. }
    lia. }
  unfold newPosition.
  destruct (Z.ltb_spec (lineNumber b - 1) 0); [lia|]. simpl.
  destruct (contains _ _); by intros [= <- <- <-].
Qed.

Lemma visitLabel_frame (d : TextDocument) (b : Bookmark) (k : Marks)
    (b' : Bookmark) (k' : Marks) (f : Flow) :
  visitLabel d b k = (b', k', f) ->
  id b' = id b /\ fsPath b' = fsPath b /\ lineNumber b' = lineNumber b /\
  marks_le k k' /\ deletedBookmarks k' = deletedBookmarks k /\
  ((b' = b /\ k' = k) \/ id b ∈ changedBookmarks k').
Proof.
  unfold visitLabel. destruct (_ <? lineCount d).
  - destruct (lineAt d _).
    + destruct (negb _); intros [= <- <- <-]; simpl;
        repeat split; try set_solver; auto.
    + intros [= <- <- <-]. repeat split; auto.
  - intros [= <- <- <-]. repeat split; auto.
Qed.

Lemma visitLabel_total (d : TextDocument) (b : Bookmark) (k : Marks)
    (b' : Bookmark) (k' : Marks) (f : Flow) :
  1 <= lineNumber b -> visitLabel d b k = (b', k', f) -> f = Continue.
Proof.
  unfold visitLabel, lineAt. intros Hpos.
  destruct (Z.ltb_spec (lineNumber b - 1) (lineCount d)) as [Hlt|];
    [|by intros [= <- <- <-]].
  destruct (Z.ltb_spec (lineNumber b - 1) 0); [lia|].
  destruct (Z.leb_spec (lineCount d) (lineNumber b - 1)); [lia|]. simpl.
  destruct (lookup_lt_is_Some_2 (lines d) (Z.to_nat (lineNumber b - 1))) as [t ->].
  { unfold lineCount, length_Z in Hlt. lia. }
  destruct (negb _); by intros [= <- <- <-].
Qed.

(** ** The reconciler: the loops *)

Lemma kept_refl (k : Marks) (b : Bookmark) : kept k b b.
Proof. by repeat split. Qed.

Lemma kept_weaken (k0 k : Marks) (b b' : Bookmark) :
  marks_le k0 k -> kept k b b' -> kept k0 b b'.
Proof. intros [_ Hd] (?&?&H). repeat split; auto. Qed.


Section Traversal.
Variable sel : Bookmark -> bool.
Variable body : Bookmark -> Marks -> Bookmark * Marks * Flow.

Hypothesis body_le : forall b k b' k' f,
  body b k = (b', k', f) -> marks_le k k'.

(** The two sets only grow. *)
Lemma forEachSelected_le (bs : list Bookmark) :
  forall k bs' k' f,
    forEachSelected sel body bs k = (bs', k', f) -> marks_le k k'.
Proof.
  induction bs as [|b rest IH]; intros k bs' k' f; simpl.
  { intros [= <- <- <-]. apply marks_le_refl. }
  destruct (sel b).
  - destruct (body b k) as [[b1 k1] f1] eqn:Hb.
    pose proof (body_le _ _ _ _ _ Hb) as Hle1.
    destruct f1.
    + destruct (forEachSelected sel body rest k1) as [[rest' k2] f2] eqn:Hrest.
      intros [= <- <- <-]. eapply marks_le_trans; [exact Hle1|]. eauto.
    + by intros [= <- <- <-].
  - destruct (forEachSelected sel body rest k) as [[rest' k2] f2] eqn:Hrest.
    intros [= <- <- <-]. eauto.
Qed.

Hypothesis body_marks : forall b k b' k' f,
  body b k = (b', k', f) ->
  (b' = b /\ k' = k) \/ id b ∈ changedBookmarks k' \/ id b ∈ deletedBookmarks k'.

(** When the traversal ends with both sets empty it has changed nothing. *)
Lemma forEachSelected_untouched (bs : list Bookmark) :
  forall k bs' k' f,
    forEachSelected sel body bs k = (bs', k', f) ->
    marks_empty k' -> bs' = bs /\ k' = k.
Proof.
  induction bs as [|b rest IH]; intros k bs' k' f; simpl.
  { by intros [= <- <- <-]. }
  destruct (sel b).
  - destruct (body b k) as [[b1 k1] f1] eqn:Hb.
    destruct (body_marks _ _ _ _ _ Hb) as [[-> ->]|Hin].
    + destruct f1.
      * destruct (forEachSelected sel body rest k) as [[rest' k2] f2] eqn:Hrest.
        intros [= <- <- <-] He. destruct (IH _ _ _ _ Hrest He) as [-> ->]. done.
      * by intros [= <- <- <-].
    + intros Hres [Hc Hd]. exfalso.
      assert (marks_le k1 k') as [Hlc Hld].
      { destruct f1.
        - destruct (forEachSelected sel body rest k1) as [[rest' k2] f2] eqn:Hrest.
          injection Hres as <- <- <-.
          by apply forEachSelected_le in Hrest.
        - injection Hres as <- <- <-. apply marks_le_refl. }
      destruct Hin as [Hin|Hin];
        [apply Hlc in Hin; rewrite Hc in Hin | apply Hld in Hin; rewrite Hd in Hin];
        by apply not_elem_of_empty in Hin.
  - destruct (forEachSelected sel body rest k) as [[rest' k2] f2] eqn:Hrest.
    intros [= <- <- <-] He. destruct (IH _ _ _ _ Hrest He) as [-> ->]. done.
Qed.

Hypothesis body_kept : forall b k b' k' f,
  body b k = (b', k', f) -> kept k b b'.

(** Identity and file of every bookmark stay, and a bookmark whose
    identifier is in the deleted set stays whole. *)
Lemma forEachSelected_kept (bs : list Bookmark) :
  forall k bs' k' f,
    forEachSelected sel body bs k = (bs', k', f) -> Forall2 (kept k) bs bs'.
Proof.
  induction bs as [|b rest IH]; intros k bs' k' f; simpl.
  { intros [= <- <- <-]. constructor. }
  destruct (sel b).
  - destruct (body b k) as [[b1 k1] f1] eqn:Hb.
    pose proof (body_kept _ _ _ _ _ Hb) as Hk1.
    pose proof (body_le _ _ _ _ _ Hb) as Hle1.
    destruct f1.
    + destruct (forEachSelected sel body rest k1) as [[rest' k2] f2] eqn:Hrest.
      intros [= <- <- <-]. constructor; [done|].
      eapply Forall2_impl; [exact (IH _ _ _ _ Hrest)|].
      intros x y. by apply kept_weaken.
    + intros [= <- <- <-].
      constructor; [done|]. apply Forall2_same_length_lookup_2; [done|].
      intros i x y Hx Hy. assert (x = y) as -> by congruence. apply kept_refl.
  - destruct (forEachSelected sel body rest k) as [[rest' k2] f2] eqn:Hrest.
    intros [= <- <- <-]. constructor; [apply kept_refl | eauto].
Qed.

Variable G : Bookmark -> Prop.
Hypothesis body_total : forall b k b' k' f,
  sel b = true -> G b -> body b k = (b', k', f) -> f = Continue /\ G b'.

(** No visit raises on the selected bookmarks that satisfy [G]. *)
Lemma forEachSelected_total (bs : list Bookmark) :
  forall k bs' k' f,
    Forall (fun b => sel b = true -> G b) bs ->
    forEachSelected sel body bs k = (bs', k', f) ->
    f = Continue /\ Forall2 (fun b b' => sel b = true -> G b') bs bs'.
Proof.
  induction bs as [|b rest IH]; intros k bs' k' f HG; simpl.
  { intros [= <- <- <-]. split; [done | constructor]. }
  apply Forall_cons in HG as [Hb Hrest].
  destruct (sel b) eqn:Hs.
  - destruct (body b k) as [[b1 k1] f1] eqn:Hbody.
    destruct (body_total _ _ _ _ _ Hs (Hb eq_refl) Hbody) as [-> Hb1].
    destruct (forEachSelected sel body rest k1) as [[rest' k2] f2] eqn:Hr.
    intros [= <- <- <-]. destruct (IH _ _ _ _ Hrest Hr) as [-> HF].
    split; [done|]. constructor; [by intros _ | exact HF].
  - destruct (forEachSelected sel body rest k) as [[rest' k2] f2] eqn:Hr.
    intros [= <- <- <-]. destruct (IH _ _ _ _ Hrest Hr) as [-> HF].
    split; [done|]. constructor; [intros H; congruence | exact HF].
Qed.
End Traversal.

Lemma Forall2_compose {A : Type} (R1 R2 R3 : A -> A -> Prop) (l1 l2 l3 : list A) :
  (forall x y z, R1 x y -> R2 y z -> R3 x z) ->
  Forall2 R1 l1 l2 -> Forall2 R2 l2 l3 -> Forall2 R3 l1 l3.
Proof.
  intros Hc H12. revert l3.
  induction H12 as [|x y l1 l2 Hxy _ IH]; intros l3 H23; inversion H23; subst;
    constructor; eauto.
Qed.

Lemma inFile_kept (path : string) (k : Marks) (b b' : Bookmark) :
  kept k b b' -> inFile path b' = inFile path b.
Proof. intros (_ & Hf & _). unfold inFile. by rewrite Hf. Qed.

Lemma visitChange_le (change : ContentChange) (b : Bookmark) (k : Marks)
    (b' : Bookmark) (k' : Marks) (f : Flow) :
  visitChange change b k = (b', k', f) -> marks_le k k'.
Proof. intros H. by apply visitChange_frame in H as (?&?&?&?&?&?). Qed.

Lemma visitChange_kept (change : ContentChange) (b : Bookmark) (k : Marks)
    (b' : Bookmark) (k' : Marks) (f : Flow) :
  visitChange change b k = (b', k', f) -> kept k b b'.
Proof.
  intros H. apply visitChange_frame in H as (?&?&?&?&?&?). by repeat split.
Qed.

Lemma visitChange_marks (change : ContentChange) (b : Bookmark) (k : Marks)
    (b' : Bookmark) (k' : Marks) (f : Flow) :
  visitChange change b k = (b', k', f) ->
  (b' = b /\ k' = k) \/ id b ∈ changedBookmarks k' \/ id b ∈ deletedBookmarks k'.
Proof. intros H. apply visitChange_frame in H as (?&?&?&?&?&H). exact H. Qed.

Lemma visitLabel_le (d : TextDocument) (b : Bookmark) (k : Marks)
    (b' : Bookmark) (k' : Marks) (f : Flow) :
  visitLabel d b k = (b', k', f) -> marks_le k k'.
Proof. intros H. by apply visitLabel_frame in H as (?&?&?&?&?&?). Qed.

Lemma visitLabel_marks (d : TextDocument) (b : Bookmark) (k : Marks)
    (b' : Bookmark) (k' : Marks) (f : Flow) :
  visitLabel d b k = (b', k', f) ->
  (b' = b /\ k' = k) \/ id b ∈ changedBookmarks k' \/ id b ∈ deletedBookmarks k'.
Proof.
  intros H. apply visitLabel_frame in H as (?&?&?&?&?&[H|H]); auto.
Qed.

(** *** The edit loops *)



Lemma forEachChange_untouched (sel : Bookmark -> bool) (changes : list ContentChange) :
  forall bs k bs' k' f,
    forEachChange sel changes bs k = (bs', k', f) ->
    marks_empty k' -> bs' = bs /\ k' = k.
Proof.
  induction changes as [|change more IH]; intros bs k bs' k' f; simpl.
  { by intros [= <- <- <-]. }
  destruct (forEachSelected sel (visitChange change) bs k) as [[bs1 k1] f1] eqn:H1.
  pose proof (forEachSelected_untouched sel _ (visitChange_le change)
                (visitChange_marks change) _ _ _ _ _ H1) as Hun.
  destruct f1.
  - intros H He. destruct (IH _ _ _ _ _ H He) as [-> ->]. by apply Hun.
  - intros [= <- <- <-] He. by apply Hun.
Qed.

Lemma positive_lines_step (path : string) (k : Marks) (bs bs' : list Bookmark) :
  Forall2 (kept k) bs bs' ->
  Forall2 (fun b b' => inFile path b = true -> 1 <= lineNumber b') bs bs' ->
  positive_lines path bs'.
Proof.
  unfold positive_lines. intros Hk. induction Hk as [|b b' bs bs' Hb _ IH];
    intros HG; inversion HG; subst; constructor; auto.
  rewrite (inFile_kept path k b b' Hb). auto.
Qed.

(** With positive line numbers and well-formed ranges the edit loops run to
    their end, and the line numbers stay positive. *)
Lemma forEachChange_total (path : string) (changes : list ContentChange) :
  Forall (fun change => range_ok (range change)) changes ->
  forall bs k bs' k' f,
    positive_lines path bs ->
    forEachChange (inFile path) changes bs k = (bs', k', f) ->
    f = Continue /\ positive_lines path bs'.
Proof.
  induction 1 as [|change more Hr _ IH]; intros bs k bs' k' f Hpos; simpl.
  { by intros [= <- <- <-]. }
  destruct (forEachSelected (inFile path) (visitChange change) bs k)
    as [[bs1 k1] f1] eqn:H1.
  destruct (forEachSelected_total (inFile path) (visitChange change)
              (fun b => 1 <= lineNumber b)
              (fun b k b' k' f _ Hb Hv => visitChange_total change b k b' k' f Hr Hb Hv)
              _ _ _ _ _ Hpos H1) as [-> HG].
  pose proof (forEachSelected_kept _ _ (visitChange_le change)
                (visitChange_kept change) _ _ _ _ _ H1) as Hk.
  intros H. eapply IH; [|exact H]. by eapply positive_lines_step.
Qed.

(** *** What the visits do *)

Section Visits.
Variable sel : Bookmark -> bool.
Variable body : Bookmark -> Marks -> Bookmark * Marks * Flow.

(** A traversal that runs to its end replaces every selected bookmark by
    what the body makes of it at its visit, and leaves the others. *)
Lemma forEachSelected_visited (bs : list Bookmark) :
  forall k bs' k',
    forEachSelected sel body bs k = (bs', k', Continue) ->
    Forall2 (fun b b' =>
               if sel b
               then exists kb, (b, kb) ∈ visited sel body bs k /\
                               fst (fst (body b kb)) = b'
               else b' = b) bs bs'.
Proof.
  induction bs as [|b rest IH]; intros k bs' k'; simpl.
  { intros [= <- <-]. constructor. }
  destruct (sel b) eqn:Hs.
  - destruct (body b k) as [[b1 k1] f1] eqn:Hb. destruct f1; [|done].
    destruct (forEachSelected sel body rest k1) as [[rest' k2] f2] eqn:Hrest.
    intros [= <- <- ->]. constructor.
    + rewrite Hs. exists k. split; [left | by rewrite Hb].
    + eapply Forall2_impl; [exact (IH _ _ _ Hrest)|].
      intros x y. simpl. destruct (sel x); [|done].
      intros (kb & Hin & Hy). exists kb. split; [by right | done].
  - destruct (forEachSelected sel body rest k) as [[rest' k2] f2] eqn:Hrest.
    intros [= <- <- ->]. constructor; [by rewrite Hs|].
    exact (IH _ _ _ Hrest).
Qed.

Lemma visited_none (bs : list Bookmark) (k : Marks) :
  List.filter sel bs = [] ->
  visited sel body bs k = [] /\ forEachSelected sel body bs k = (bs, k, Continue).
Proof.
  induction bs as [|b rest IH]; simpl; [done|].
  destruct (sel b); [done|]. intros H. destruct (IH H) as [-> ->]. done.
Qed.

Variable fires : Bookmark -> Marks -> Prop.
Hypothesis fires_dec : forall b k, fires b k \/ ~ fires b k.
Hypothesis body_le : forall b k b' k' f,
  body b k = (b', k', f) -> marks_le k k'.
Hypothesis body_fires : forall b k b' k' f,
  body b k = (b', k', f) -> fires b k -> ~ marks_empty k'.
Hypothesis body_quiet : forall b k b' k' f,
  body b k = (b', k', f) -> ~ fires b k -> k' = k.

(** The sets are non-empty at the end exactly when they were at the start or
    some visit fired. *)
Lemma visited_fires (bs : list Bookmark) :
  forall k bs' k' f,
    forEachSelected sel body bs k = (bs', k', f) ->
    (~ marks_empty k' <->
     ~ marks_empty k \/
     exists b kb, (b, kb) ∈ visited sel body bs k /\ fires b kb).
Proof.
  induction bs as [|b rest IH]; intros k bs' k' f; simpl.
  { intros [= <- <- <-]. split; [by left|].
    intros [H|(b & kb & Hin & _)]; [done | by apply elem_of_nil in Hin]. }
  destruct (sel b).
  - destruct (body b k) as [[b1 k1] f1] eqn:Hb.
    pose proof (body_le _ _ _ _ _ Hb) as Hle.
    intros Hres.
    assert (Hle' : marks_le k1 k').
    { destruct f1.
      - destruct (forEachSelected sel body rest k1) as [[rest' k2] f2] eqn:Hrest.
        injection Hres as <- <- <-.
        by apply (forEachSelected_le sel body body_le) in Hrest.
      - injection Hres as <- <- <-. apply marks_le_refl. }
    split.
    + intros Hne. destruct (fires_dec b k) as [Hf|Hq].
      { right. exists b, k. split; [left | done]. }
      pose proof (body_quiet _ _ _ _ _ Hb Hq) as ->.
      destruct f1.
      * destruct (forEachSelected sel body rest k) as [[rest' k2] f2] eqn:Hrest.
        injection Hres as <- <- <-.
        destruct (proj1 (IH _ _ _ _ Hrest) Hne) as [H|(x & kx & Hin & Hx)];
          [by left|].
        right. exists x, kx. split; [by right | done].
      * injection Hres as <- <- <-. by left.
    + intros [Hk|(x & kx & Hin & Hx)] He.
      * apply Hk. eapply marks_le_empty; [|exact He].
        by eapply marks_le_trans.
      * apply elem_of_cons in Hin as [[= -> ->]|Hin].
        { apply (body_fires _ _ _ _ _ Hb Hx). by eapply marks_le_empty. }
        destruct f1; [|by apply elem_of_nil in Hin].
        destruct (forEachSelected sel body rest k1) as [[rest' k2] f2] eqn:Hrest.
        injection Hres as <- <- <-.
        apply (proj2 (IH _ _ _ _ Hrest)); [|done]. right. eauto.
  - destruct (forEachSelected sel body rest k) as [[rest' k2] f2] eqn:Hrest.
    intros [= <- <- <-]. exact (IH _ _ _ _ Hrest).
Qed.
End Visits.

Lemma shifts_or_deletes_dec (change : ContentChange) (b : Bookmark) (k : Marks) :
  (shifts change b k \/ deletes change b k) \/
  ~ (shifts change b k \/ deletes change b k).
Proof.
  unfold shifts, deletes.
  destruct (decide (id b ∈ deletedBookmarks k)); [right; tauto|].
  destruct (Z_lt_dec (line (range_end (range change))) (lineNumber b - 1));
    [left; left; tauto|].
  destruct (Z_le_dec 0 (lineNumber b - 1)); [|right; intros [[]|(?&?&?&?)]; lia].
  destruct (contains (range change) (mkPos (lineNumber b - 1) 0)) eqn:Hc.
  - left; right. repeat split; auto; lia.
  - right. intros [[]|(?&?&?&?)]; [lia | congruence].
Qed.

Lemma visitChange_fires (change : ContentChange) (b : Bookmark) (k : Marks)
    (b' : Bookmark) (k' : Marks) (f : Flow) :
  visitChange change b k = (b', k', f) ->
  shifts change b k \/ deletes change b k -> ~ marks_empty k'.
Proof.
  intros Hv Hf [Hc Hd]. destruct Hf as [[Hk Hlt]|(Hk & Hge & Hpos & Hin)].
  - rewrite (visitChange_shift change b k) in Hv;
      [| by apply is_deleted_false | done].
    injection Hv as <- <- <-. simpl in Hc.
    apply (not_elem_of_empty (C := gset string) (id b)).
    rewrite <- Hc. apply elem_of_union_l. by apply elem_of_singleton.
  - rewrite (visitChange_delete change b k) in Hv;
      [| by apply is_deleted_false | lia | done].
    injection Hv as <- <- <-. simpl in Hd.
    apply (not_elem_of_empty (C := gset string) (id b)).
    rewrite <- Hd. apply elem_of_union_l. by apply elem_of_singleton.
Qed.

Lemma visitChange_quiet (change : ContentChange) (b : Bookmark) (k : Marks)
    (b' : Bookmark) (k' : Marks) (f : Flow) :
  visitChange change b k = (b', k', f) ->
  ~ (shifts change b k \/ deletes change b k) -> k' = k.
Proof.
  unfold visitChange, shifts, deletes. intros Hv Hq.
  destruct (is_deleted k b) eqn:Hk; [by injection Hv as <- <- <-|].
  apply is_deleted_false in Hk.
  destruct (Z.ltb_spec (line (range_end (range change))) (lineNumber b - 1));
    [tauto|].
  unfold newPosition in Hv.
  destruct (Z.ltb_spec (lineNumber b - 1) 0); simpl in Hv;
    [by injection Hv as <- <- <-|].
  destruct (contains _ _) eqn:Hc; [tauto|]. by injection Hv as <- <- <-.
Qed.

Lemma relabels_dec (d : TextDocument) (b : Bookmark) :
  relabels d b \/ ~ relabels d b.
Proof.
  unfold relabels. destruct (lineAt d (lineNumber b - 1)) as [t|].
  - destruct (decide (label b = trim t)) as [He|Hne].
    + right. intros (t' & [= <-] & H). done.
    + left. eauto.
  - right. by intros (t' & H & _).
Qed.

Lemma lineAt_in_range (d : TextDocument) (i : Z) (t : string) :
  lineAt d i = Some t -> i < lineCount d.
Proof.
  unfold lineAt. destruct (Z.ltb_spec i 0); [done|].
  destruct (Z.leb_spec (lineCount d) i); [done | lia].
Qed.

Lemma visitLabel_fires (d : TextDocument) (b : Bookmark) (k : Marks)
    (b' : Bookmark) (k' : Marks) (f : Flow) :
  visitLabel d b k = (b', k', f) -> relabels d b -> ~ marks_empty k'.
Proof.
  unfold visitLabel. intros Hv (t & Ht & Hne) [Hc _].
  pose proof (lineAt_in_range _ _ _ Ht) as Hlt.
  apply Z.ltb_lt in Hlt. rewrite Hlt, Ht in Hv.
  apply String.eqb_neq in Hne. rewrite Hne in Hv. simpl in Hv.
  injection Hv as <- <- <-. simpl in Hc.
  apply (not_elem_of_empty (C := gset string) (id b)).
  rewrite <- Hc. apply elem_of_union_l. by apply elem_of_singleton.
Qed.

Lemma visitLabel_quiet (d : TextDocument) (b : Bookmark) (k : Marks)
    (b' : Bookmark) (k' : Marks) (f : Flow) :
  visitLabel d b k = (b', k', f) -> ~ relabels d b -> k' = k.
Proof.
  unfold visitLabel, relabels. intros Hv Hq.
  destruct (_ <? lineCount d); [|by injection Hv as <- <- <-].
  destruct (lineAt d _) as [t|]; [|by injection Hv as <- <- <-].
  destruct (String.eqb_spec (label b) (trim t)) as [He|Hne]; simpl in Hv;
    [by injection Hv as <- <- <-|].
  exfalso. apply Hq. eauto.
Qed.

(** The edit loops end with non-empty sets exactly when they started with
    non-empty sets or some edit shifted or deleted the bookmark it visited. *)
Lemma batchVisited_fires (sel : Bookmark -> bool) (changes : list ContentChange) :
  forall bs k bs' k' f,
    forEachChange sel changes bs k = (bs', k', f) ->
    (~ marks_empty k' <->
     ~ marks_empty k \/
     exists change b kb,
       (change, b, kb) ∈ batchVisited sel changes bs k /\
       (shifts change b kb \/ deletes change b kb)).
Proof.
  induction changes as [|change more IH]; intros bs k bs' k' f; simpl.
  { intros [= <- <- <-]. split; [by left|].
    intros [H|(c & b & kb & Hin & _)]; [done | by apply elem_of_nil in Hin]. }
  destruct (forEachSelected sel (visitChange change) bs k) as [[bs1 k1] f1] eqn:H1.
  pose proof (visited_fires sel (visitChange change)
                (fun b k => shifts change b k \/ deletes change b k)
                (shifts_or_deletes_dec change) (visitChange_le change)
                (visitChange_fires change) (visitChange_quiet change)
                _ _ _ _ _ H1) as Hpass.
  assert (Hhere : (exists b kb, (b, kb) ∈ visited sel (visitChange change) bs k /\
                     (shifts change b kb \/ deletes change b kb)) ->
                  forall tl, exists c b kb,
                    (c, b, kb) ∈ ((fun v : Bookmark * Marks => (change, fst v, snd v))
                                   <$> visited sel (visitChange change) bs k) ++ tl /\
                    (shifts c b kb \/ deletes c b kb)).
  { intros (b & kb & Hin & Hf) tl. exists change, b, kb. split; [|done].
    apply elem_of_app. left. apply list_elem_of_fmap.
    exists (b, kb). split; [done | done]. }
  assert (Hback : forall tl c b kb,
            (c, b, kb) ∈ ((fun v : Bookmark * Marks => (change, fst v, snd v))
                           <$> visited sel (visitChange change) bs k) ++ tl ->
            (c = change /\ (b, kb) ∈ visited sel (visitChange change) bs k) \/
            (c, b, kb) ∈ tl).
  { intros tl c b kb Hin. apply elem_of_app in Hin as [Hin|Hin]; [left|by right].
    apply list_elem_of_fmap in Hin as ([x kx] & [= -> -> ->] & Hin). done. }
  destruct f1.
  - intros Hrest. pose proof (IH _ _ _ _ _ Hrest) as Hlater. split.
    + intros Hne. apply Hlater in Hne as [Hne|(c & b & kb & Hin & Hf)].
      * apply Hpass in Hne as [Hne|Hv]; [by left|]. right. by apply Hhere.
      * right. exists c, b, kb. split; [|done]. apply elem_of_app. by right.
    + intros [Hk|(c & b & kb & Hin & Hf)]; apply Hlater.
      * left. apply Hpass. by left.
      * apply Hback in Hin as [[-> Hin]|Hin].
        { left. apply Hpass. right. eauto. }
        right. eauto.
  - intros [= <- <- <-]. split.
    + intros Hne. apply Hpass in Hne as [Hne|Hv]; [by left|]. right. by apply Hhere.
    + intros [Hk|(c & b & kb & Hin & Hf)]; apply Hpass; [by left|].
      apply Hback in Hin as [[-> Hin]|Hin]; [|by apply elem_of_nil in Hin].
      right. eauto.
Qed.

(** ** The reconciler: the method *)

Lemma mutate_bookmarks_present (m : BookmarkManager) (bs : list Bookmark) :
  has_context m (activeContextId m) = true ->
  mutate_bookmarks bs m = set_storage (<[activeContextId m := bs]> (storage m)) m.
Proof. intros H. unfold mutate_bookmarks. by rewrite H. Qed.

Lemma has_context_set (m : BookmarkManager) (bs : list Bookmark) :
  has_context (set_storage (<[activeContextId m := bs]> (storage m)) m)
    (activeContextId m) = true.
Proof. apply has_context_true; simpl. rewrite lookup_insert_eq. eauto. Qed.

Lemma set_storage_again (m : BookmarkManager) (x y : list Bookmark) :
  let m1 := set_storage (<[activeContextId m := x]> (storage m)) m in
  set_storage (<[activeContextId m1 := y]> (storage m1)) m1
  = set_storage (<[activeContextId m := y]> (storage m)) m.
Proof. unfold set_storage; simpl. by rewrite insert_insert_eq. Qed.

Lemma filter_nonempty_has_context (p : Bookmark -> bool) (m : BookmarkManager) :
  List.filter p (getBookmarks m) <> [] -> has_context m (activeContextId m) = true.
Proof.
  intros H. apply getBookmarks_nonempty_has_context. intros E. by rewrite E in H.
Qed.

(** The method in terms of [reconcile]: the loops work on the array of the
    active context, whose final content is what the store holds at the end. *)
Lemma handleTextDocumentChange_reconcile (event : TextDocumentChangeEvent)
    (m : BookmarkManager) :
  List.filter (inFile (uri_fsPath (document event))) (getBookmarks m) <> [] ->
  handleTextDocumentChange event m
  = let '(bs, k, f) := reconcile event (getBookmarks m) in
    let m1 := set_storage (<[activeContextId m := bs]> (storage m)) m in
    match f with
    | Abort => (m1, Threw)
    | Continue =>
        if (0 <? size (changedBookmarks k))%nat || (0 <? size (deletedBookmarks k))%nat
        then (save m1, Returned true)
        else (m1, Returned false)
    end.
Proof.
  intros Hne. pose proof (filter_nonempty_has_context _ _ Hne) as Hctx.
  unfold handleTextDocumentChange, reconcile. cbv zeta.
  destruct (Z.eqb_spec (length_Z (List.filter (inFile (uri_fsPath (document event)))
                                    (getBookmarks m))) 0) as [H0|_].
  { by apply length_Z_zero in H0. }
  destruct (forEachChange _ _ _ _) as [[bs1 k1] f1].
  rewrite (mutate_bookmarks_present m bs1 Hctx).
  destruct f1; [|done].
  destruct (0 <? size (deletedBookmarks k1))%nat.
  - pose proof (set_storage_again m bs1
                  (List.filter (fun b => negb (is_deleted k1 b)) bs1)) as E.
    cbv zeta in E. rewrite E. clear E.
    rewrite getBookmarks_set.
    destruct (forEachSelected _ _ _ k1) as [[bs3 k3] f3].
    rewrite mutate_bookmarks_present by exact (has_context_set m _).
    pose proof (set_storage_again m
                  (List.filter (fun b => negb (is_deleted k1 b)) bs1) bs3) as E.
    cbv zeta in E. rewrite E. done.
  - rewrite getBookmarks_set.
    destruct (forEachSelected _ _ _ k1) as [[bs3 k3] f3].
    rewrite mutate_bookmarks_present by exact (has_context_set m _).
    pose proof (set_storage_again m bs1 bs3) as E.
    cbv zeta in E. rewrite E. done.
Qed.

Lemma reconcile_untouched (event : TextDocumentChangeEvent) (bs bs' : list Bookmark)
    (k : Marks) (f : Flow) :
  reconcile event bs = (bs', k, f) -> marks_empty k -> bs' = bs.
Proof.
  unfold reconcile.
  destruct (forEachChange _ _ _ _) as [[bs1 k1] f1] eqn:H1.
  destruct f1.
  - intros H2 He.
    destruct (forEachSelected_untouched _ _ (visitLabel_le (document event))
                (visitLabel_marks (document event)) _ _ _ _ _ H2 He) as [-> ->].
    destruct (forEachChange_untouched _ _ _ _ _ _ _ H1 He) as [-> _].
    destruct He as [_ ->]. by rewrite size_empty.
  - intros [= <- <- <-] He. by destruct (forEachChange_untouched _ _ _ _ _ _ _ H1 He).
Qed.

Lemma marks_empty_sizes (k : Marks) :
  (0 <? size (changedBookmarks k))%nat || (0 <? size (deletedBookmarks k))%nat = false
  <-> marks_empty k.
Proof.
  unfold marks_empty. split.
  - intros [H1 H2]%orb_false_iff. apply Nat.ltb_ge in H1, H2.
    split; apply leibniz_equiv, size_empty_iff; lia.
  - intros [-> ->]. by rewrite !size_empty.
Qed.

(** With positive line numbers and well-formed ranges the method returns. *)
Lemma reconcile_total (event : TextDocumentChangeEvent) (bs bs' : list Bookmark)
    (k : Marks) (f : Flow) :
  Forall (fun change => range_ok (range change)) (contentChanges event) ->
  positive_lines (uri_fsPath (document event)) bs ->
  reconcile event bs = (bs', k, f) -> f = Continue.
Proof.
  intros Hr Hpos. unfold reconcile.
  destruct (forEachChange _ _ _ _) as [[bs1 k1] f1] eqn:H1.
  destruct (forEachChange_total _ _ Hr _ _ _ _ _ Hpos H1) as [-> Hpos1].
  intros H2.
  eapply (forEachSelected_total _ (visitLabel (document event))
            (fun b => 1 <= lineNumber b)); [| |exact H2].
  - intros b k0 b' k0' f0 _ Hb Hv. split; [by eapply visitLabel_total|].
    apply visitLabel_frame in Hv as (_&_&->&_). done.
  - assert (Hsub : positive_lines (uri_fsPath (document event))
                     (if (0 <? size (deletedBookmarks k1))%nat
                      then List.filter (fun b => negb (is_deleted k1 b)) bs1 else bs1)).
    { destruct (0 <? size (deletedBookmarks k1))%nat; [|done].
      unfold positive_lines in *. rewrite Forall_forall in Hpos1 |- *.
      intros b Hb. apply Hpos1. apply list_elem_of_In in Hb.
      apply List.filter_In in Hb as [Hb _]. by apply list_elem_of_In. }
    eapply Forall_impl; [exact Hsub|]. simpl. intros b Hb Hs.
    apply andb_true_iff in Hs as [Hs _]. auto.
Qed.

Lemma noMarks_empty : marks_empty noMarks.
Proof. by split. Qed.

Lemma batchVisited_none (sel : Bookmark -> bool) (changes : list ContentChange)
    (bs : list Bookmark) (k : Marks) :
  List.filter sel bs = [] ->
  batchVisited sel changes bs k = [] /\
  forEachChange sel changes bs k = (bs, k, Continue).
Proof.
  intros Hnone. induction changes as [|change more [IH1 IH2]]; simpl; [done|].
  destruct (visited_none sel (visitChange change) bs k Hnone) as [-> ->].
  by rewrite IH1, IH2.
Qed.

Lemma filter_none_stronger (p q : Bookmark -> bool) (bs : list Bookmark) :
  (forall b, q b = true -> p b = true) ->
  List.filter p bs = [] -> List.filter q bs = [].
Proof.
  intros Hqp. induction bs as [|b rest IH]; simpl; [done|].
  destruct (p b) eqn:Hp; [done|]. intros H.
  destruct (q b) eqn:Hq; [|by apply IH].
  apply Hqp in Hq. congruence.
Qed.

Lemma visits_none (event : TextDocumentChangeEvent) (bs : list Bookmark) :
  List.filter (inFile (uri_fsPath (document event))) bs = [] ->
  editsVisited event bs = [] /\ labelsVisited event bs = [].
Proof.
  intros He. unfold editsVisited, labelsVisited. cbv zeta.
  destruct (batchVisited_none _ (contentChanges event) bs noMarks He) as [-> ->].
  split; [done|].
  change (0 <? size (deletedBookmarks noMarks))%nat with false. cbv iota.
  apply visited_none. eapply filter_none_stronger; [|exact He].
  intros b Hb. by apply andb_true_iff in Hb as [Hb _].
Qed.

(** What makes the two sets non-empty: an edit that shifted or deleted the
    bookmark it visited, or a label that was replaced. *)
Lemma reconcile_fires (event : TextDocumentChangeEvent) (bs bs' : list Bookmark)
    (k : Marks) (f : Flow) :
  reconcile event bs = (bs', k, f) ->
  (~ marks_empty k <->
   (exists change b kb,
      (change, b, kb) ∈ editsVisited event bs /\
      (shifts change b kb \/ deletes change b kb)) \/
   (exists b kb,
      (b, kb) ∈ labelsVisited event bs /\ relabels (document event) b)).
Proof.
  unfold reconcile, editsVisited, labelsVisited.
  destruct (forEachChange _ _ _ _) as [[bs1 k1] f1] eqn:H1.
  pose proof (batchVisited_fires _ _ _ _ _ _ _ H1) as Hedits.
  destruct f1.
  - intros H2.
    pose proof (visited_fires _ (visitLabel (document event))
                  (fun b _ => relabels (document event) b)
                  (fun b _ => relabels_dec (document event) b)
                  (visitLabel_le (document event))
                  (visitLabel_fires (document event))
                  (visitLabel_quiet (document event))
                  _ _ _ _ _ H2) as Hlabels.
    rewrite Hlabels, Hedits. split.
    + intros [[Hk|H]|H]; [by destruct Hk; apply noMarks_empty | by left | by right].
    + intros [H|H]; [left; by right | by right].
  - intros [= <- <- <-]. rewrite Hedits. split.
    + intros [Hk|H]; [by destruct Hk; apply noMarks_empty | by left].
    + intros [H|(b & kb & Hin & _)]; [by right | by apply elem_of_nil in Hin].
Qed.

(** ** What the bookmark operations leave alone *)

Lemma elsewhere_refl (m : BookmarkManager) : elsewhere m m.
Proof. by split. Qed.

Lemma elsewhere_trans (m1 m2 m3 : BookmarkManager) :
  elsewhere m1 m2 -> elsewhere m2 m3 -> elsewhere m1 m3.
Proof.
  intros [Ha H] [Ha' H']. split; [congruence|].
  intros k Hk. rewrite H', H; [done | done | congruence].
Qed.

Lemma elsewhere_save (m : BookmarkManager) : elsewhere m (save m).
Proof. by split. Qed.

Lemma elsewhere_set_cursor (m : BookmarkManager) (i : Z) : elsewhere m (set_cursor i m).
Proof. by split. Qed.

Lemma elsewhere_set_active_array (m : BookmarkManager) (bs : list Bookmark) :
  elsewhere m (set_storage (<[activeContextId m := bs]> (storage m)) m).
Proof. split; [done|]. intros k Hk; simpl. by rewrite lookup_insert_ne. Qed.

Lemma elsewhere_mutate (m : BookmarkManager) (bs : list Bookmark) :
  elsewhere m (mutate_bookmarks bs m).
Proof.
  unfold mutate_bookmarks. destruct (has_context _ _);
    [apply elsewhere_set_active_array | apply elsewhere_refl].
Qed.

Lemma cursor_mutate (m : BookmarkManager) (bs : list Bookmark) :
  currentBookmarkIndex (mutate_bookmarks bs m) = currentBookmarkIndex m.
Proof. unfold mutate_bookmarks. by destruct (has_context _ _). Qed.

Create HintDb frame.

#[local] Hint Resolve elsewhere_refl elsewhere_save elsewhere_set_cursor
  elsewhere_set_active_array elsewhere_mutate : frame.

Lemma elsewhere_addBookmark (uuid path : string) (n : Z) (lbl : string)
    (m : BookmarkManager) :
  elsewhere m (addBookmark uuid path n lbl m).
Proof.
  unfold addBookmark. eapply elsewhere_trans; [apply elsewhere_mutate|].
  apply elsewhere_save.
Qed.

Lemma elsewhere_removeBookmark (bid : string) (m : BookmarkManager) :
  elsewhere m (removeBookmark bid m).
Proof.
  unfold removeBookmark. cbv zeta.
  eapply elsewhere_trans; [apply elsewhere_set_active_array|].
  eapply elsewhere_trans; [|apply elsewhere_save].
  destruct (_ <? _); [apply elsewhere_set_cursor|].
  destruct (_ =? _); auto with frame.
Qed.

Lemma elsewhere_clearAllBookmarks (m : BookmarkManager) :
  elsewhere m (clearAllBookmarks m).
Proof.
  unfold clearAllBookmarks.
  eapply elsewhere_trans; [apply elsewhere_set_active_array|].
  eapply elsewhere_trans; [apply elsewhere_set_cursor | apply elsewhere_save].
Qed.

Lemma elsewhere_reorderBookmarks (dragged : Bookmark) (target : option Bookmark)
    (m : BookmarkManager) :
  elsewhere m (reorderBookmarks dragged target m).
Proof.
  unfold reorderBookmarks. cbv zeta.
  destruct (_ =? -1); [apply elsewhere_refl|].
  destruct (at_index _ _); [|apply elsewhere_refl].
  destruct target as [t|].
  - destruct (negb _);
      (eapply elsewhere_trans; [apply elsewhere_mutate|]);
      (eapply elsewhere_trans; [apply elsewhere_set_cursor | apply elsewhere_save]).
  - eapply elsewhere_trans; [apply elsewhere_mutate|].
    eapply elsewhere_trans; [apply elsewhere_set_cursor | apply elsewhere_save].
Qed.

(** Reconciliation writes the active context's array only, and never the
    cursor. *)
Lemma handleTextDocumentChange_frame (event : TextDocumentChangeEvent)
    (m : BookmarkManager) :
  elsewhere m (fst (handleTextDocumentChange event m)) /\
  currentBookmarkIndex (fst (handleTextDocumentChange event m))
  = currentBookmarkIndex m.
Proof.
  destruct (decide (List.filter (inFile (uri_fsPath (document event)))
                      (getBookmarks m) = [])) as [He|Hne].
  - unfold handleTextDocumentChange. cbv zeta. rewrite He. simpl.
    split; [apply elsewhere_refl | done].
  - rewrite (handleTextDocumentChange_reconcile event m Hne).
    destruct (reconcile event (getBookmarks m)) as [[bs k] f].
    destruct f; [destruct (_ || _)|]; simpl;
      (split; [|done]); auto with frame.
    eapply elsewhere_trans; [apply elsewhere_set_active_array | apply elsewhere_save].
Qed.

(** C10: the bookmark operations -- [addBookmark], [removeBookmark],
    [clearAllBookmarks], [reorderBookmarks] and [handleTextDocumentChange] --
    leave the sequence of every context other than the active one, and the
    active context id, as they were. *)
Theorem bookmark_operations_frame (m : BookmarkManager) (k : string)
    (uuid path : string) (n : Z) (lbl : string) (bid : string)
    (dragged : Bookmark) (target : option Bookmark)
    (event : TextDocumentChangeEvent) :
  k <> activeContextId m ->
  (storage (addBookmark uuid path n lbl m) !! k = storage m !! k /\
   activeContextId (addBookmark uuid path n lbl m) = activeContextId m) /\
  (storage (removeBookmark bid m) !! k = storage m !! k /\
   activeContextId (removeBookmark bid m) = activeContextId m) /\
  (storage (clearAllBookmarks m) !! k = storage m !! k /\
   activeContextId (clearAllBookmarks m) = activeContextId m) /\
  (storage (reorderBookmarks dragged target m) !! k = storage m !! k /\
   activeContextId (reorderBookmarks dragged target m) = activeContextId m) /\
  (storage (fst (handleTextDocumentChange event m)) !! k = storage m !! k /\
   activeContextId (fst (handleTextDocumentChange event m)) = activeContextId m).
Proof.
  intros Hk.
  assert (Huse : forall m', elsewhere m m' ->
            storage m' !! k = storage m !! k /\ activeContextId m' = activeContextId m).
  { intros m' [Ha H]. split; [by apply H | done]. }
  repeat split; apply Huse;
    first [ apply elsewhere_addBookmark | apply elsewhere_removeBookmark
          | apply elsewhere_clearAllBookmarks | apply elsewhere_reorderBookmarks
          | apply handleTextDocumentChange_frame ].
Qed.

Lemma bookmark_operations_frame_witness :
  storage (removeBookmark "A" (twoContexts [bookmarkAt "A" 5] 0)) !! "work"
  = Some [bookmarkAt "W" 3] /\
  storage (fst (handleTextDocumentChange
                  (mkEvent (uniformDocument 12 "x") [cutLines4to6])
                  (twoContexts [bookmarkAt "A" 5] 0))) !! "work"
  = Some [bookmarkAt "W" 3].
Proof.
  destruct (bookmark_operations_frame (twoContexts [bookmarkAt "A" 5] 0) "work"
              "u" "/src/app.ts" 1 "l" "A" (bookmarkAt "A" 5) None
              (mkEvent (uniformDocument 12 "x") [cutLines4to6]))
    as (_ & [Hr _] & _ & _ & [Hh _]).
  - vm_compute. discriminate.
  - split; [rewrite Hr | rewrite Hh]; reflexivity.
Defined.

(** ** C2: reconciliation and the cursor *)

(** C2: the claim says that reconciliation adjusts the cursor for every
    bookmark it removes, as [removeBookmark] does.  It never writes the
    cursor.  Below the cursor is on B; the edit removes A, which precedes
    B; the cursor index stays 1 and now designates C. *)
Theorem reconciliation_leaves_cursor_index :
  (forall event m,
     currentBookmarkIndex (fst (handleTextDocumentChange event m))
     = currentBookmarkIndex m) /\
  let m := storeOf [bookmarkAt "A" 5; bookmarkAt "B" 10; bookmarkAt "C" 12] 1 in
  let event := mkEvent (uniformDocument 10 "x") [cutLines4to6] in
  let m' := fst (handleTextDocumentChange event m) in
  id <$> getCurrentBookmark m = Some "B" /\
  id <$> getBookmarks m' = ["B"; "C"] /\
  currentBookmarkIndex m' = 1 /\
  id <$> getCurrentBookmark m' = Some "C" /\
  currentBookmarkIndex (removeBookmark "A" m) = 0.
Proof.
  split; [intros; apply handleTextDocumentChange_frame | by vm_compute].
Qed.

(** ** C4: the rule applied to each edit and bookmark *)




(** The second example of the specification: the range of lines 4 to 6
    covers the line of the bookmark at line 5, which is removed, and the
    bookmark at line 10 moves by the edit's [lineDelta] of -2. *)
Example reconcile_cut_example :
  let r := handleTextDocumentChange
             (mkEvent (uniformDocument 10 "x") [cutLines4to6])
             (storeOf [bookmarkAt "A" 5; bookmarkAt "B" 10] (-1)) in
  (fun b => (id b, lineNumber b)) <$> getBookmarks (fst r) = [("B", 8)] /\
  snd r = Returned true.
Proof. by vm_compute. Qed.

(** ** C8: what the method reports *)

(** C8, as worded, fails in its "only if" half: an edit that ends above a
    bookmark and adds as many line breaks as it removes goes through the
    shift branch with [lineDelta = 0]; the bookmark's identifier enters
    [changedBookmarks], the store is persisted and [true] is returned, while
    no bookmark has moved, changed its label or gone. *)
Lemma report_changed_without_change :
  let m := storeOf [bookmarkAt "A" 5] (-1) in
  let event := mkEvent documentAfterRetype [retypeOnLine2] in
  let r := handleTextDocumentChange event m in
  snd r = Returned true /\
  storage (fst r) = storage m /\
  workspaceState m = emptyMemento /\
  ws_bookmark_storage (workspaceState (fst r)) = Some (storage m).
Proof. by vm_compute. Qed.

(** C8 (amended): [handleTextDocumentChange] reports [true] and persists the
    store exactly when, in the course of the batch, some edit shifted the
    bookmark it visited (the edit ended above the bookmark's line: the shift
    by [lineDelta] is applied and recorded whatever its amount, 0 included),
    some edit deleted the bookmark it visited, or the label pass replaced a
    label.  When it reports [false] the store, persisted copy included, is
    as it was; this is the case whenever no bookmark of the active context
    belongs to the edited file.  With positive line numbers and well-formed
    ranges it always reports. *)
Theorem handleTextDocumentChange_report (event : TextDocumentChangeEvent)
    (m : BookmarkManager) :
  let path := uri_fsPath (document event) in
  let affected := List.filter (inFile path) (getBookmarks m) in
  (affected = [] -> handleTextDocumentChange event m = (m, Returned false)) /\
  (forall m', handleTextDocumentChange event m = (m', Returned false) -> m' = m) /\
  (forall m', handleTextDocumentChange event m = (m', Returned true) ->
     ws_bookmark_storage (workspaceState m') = Some (storage m') /\
     ws_bookmark_active_context (workspaceState m') = Some (activeContextId m')) /\
  (forall m' c, handleTextDocumentChange event m = (m', Returned c) ->
     (c = true <->
      (exists change b k,
         (change, b, k) ∈ editsVisited event (getBookmarks m) /\
         (shifts change b k \/ deletes change b k)) \/
      (exists b k,
         (b, k) ∈ labelsVisited event (getBookmarks m) /\
         relabels (document event) b))) /\
  (positive_lines path (getBookmarks m) ->
   Forall (fun change => range_ok (range change)) (contentChanges event) ->
   exists m' c, handleTextDocumentChange event m = (m', Returned c)).
Proof.
  intros path affected.
  assert (Hnone : affected = [] ->
            handleTextDocumentChange event m = (m, Returned false)).
  { intros He. unfold handleTextDocumentChange. cbv zeta.
    fold path. fold affected. by rewrite He. }
  assert (Hsome : affected <> [] ->
    forall bs k f, reconcile event (getBookmarks m) = (bs, k, f) ->
      let m1 := set_storage (<[activeContextId m := bs]> (storage m)) m in
      handleTextDocumentChange event m
      = match f with
        | Abort => (m1, Threw)
        | Continue =>
            if (0 <? size (changedBookmarks k))%nat
               || (0 <? size (deletedBookmarks k))%nat
            then (save m1, Returned true) else (m1, Returned false)
        end).
  { intros Hne bs k f Hrec.
    rewrite (handleTextDocumentChange_reconcile event m Hne), Hrec. done. }
  assert (Hdec : affected = [] \/ affected <> []).
  { destruct affected; [by left | by right]. }
  split; [exact Hnone|]. split; [|split; [|split]].
  - intros m' Hrun. destruct Hdec as [He|Hne].
    { rewrite (Hnone He) in Hrun. congruence. }
    destruct (reconcile event (getBookmarks m)) as [[bs k] f] eqn:Hrec.
    rewrite (Hsome Hne _ _ _ eq_refl) in Hrun. cbv zeta in Hrun.
    destruct f; [|done].
    destruct (_ || _) eqn:Hsz; [done|]. injection Hrun as <-.
    apply marks_empty_sizes in Hsz.
    rewrite (reconcile_untouched _ _ _ _ _ Hrec Hsz).
    pose proof (filter_nonempty_has_context _ _ Hne) as Hctx.
    rewrite <- (mutate_bookmarks_present m _ Hctx). apply mutate_bookmarks_same.
  - intros m' Hrun. destruct Hdec as [He|Hne].
    { rewrite (Hnone He) in Hrun. congruence. }
    destruct (reconcile event (getBookmarks m)) as [[bs k] f] eqn:Hrec.
    rewrite (Hsome Hne _ _ _ eq_refl) in Hrun. cbv zeta in Hrun.
    destruct f; [|done].
    destruct (_ || _); [|done]. by injection Hrun as <-.
  - intros m' c Hrun. destruct Hdec as [He|Hne].
    + rewrite (Hnone He) in Hrun. injection Hrun as _ <-.
      split; [done|]. intros H. exfalso.
      destruct (visits_none event (getBookmarks m) He) as [Hv Hl].
      rewrite Hv, Hl in H.
      destruct H as [(?&?&?&Hin&_)|(?&?&Hin&_)]; by apply elem_of_nil in Hin.
    + destruct (reconcile event (getBookmarks m)) as [[bs k] f] eqn:Hrec.
      rewrite (Hsome Hne _ _ _ eq_refl) in Hrun. cbv zeta in Hrun.
      rewrite <- (reconcile_fires _ _ _ _ _ Hrec).
      destruct f; [|done].
      destruct (_ || _) eqn:Hsz; injection Hrun as _ <-.
      * split; [intros _|done]. intros He. apply marks_empty_sizes in He.
        congruence.
      * apply marks_empty_sizes in Hsz. split; [done|]. by intros H.
  - intros Hpos Hr. destruct Hdec as [He|Hne].
    { exists m, false. by apply Hnone. }
    destruct (reconcile event (getBookmarks m)) as [[bs k] f] eqn:Hrec.
    rewrite (Hsome Hne _ _ _ eq_refl). cbv zeta.
    rewrite (reconcile_total _ _ _ _ _ Hr Hpos Hrec).
    destruct (_ || _); eauto.
Qed.

Lemma handleTextDocumentChange_report_witness :
  handleTextDocumentChange (mkEvent (uniformDocument 3 "x") [insertTwoLines])
    (storeOf [mkBookmark "A" "/src/other.ts" 5 "A"] 0)
  = (storeOf [mkBookmark "A" "/src/other.ts" 5 "A"] 0, Returned false) /\
  exists m' c,
    handleTextDocumentChange (mkEvent (uniformDocument 12 "x") [insertTwoLines])
      (storeOf [bookmarkAt "A" 5] 0) = (m', Returned c).
Proof.
  split.
  - apply (handleTextDocumentChange_report
             (mkEvent (uniformDocument 3 "x") [insertTwoLines])
             (storeOf [mkBookmark "A" "/src/other.ts" 5 "A"] 0)).
    reflexivity.
  - apply (handleTextDocumentChange_report
             (mkEvent (uniformDocument 12 "x") [insertTwoLines])
             (storeOf [bookmarkAt "A" 5] 0)).
    + repeat constructor. vm_compute. discriminate.
    + repeat constructor; vm_compute; discriminate.
Defined.

(** ** C9: hydration *)

Lemma has_context_mk (st : gmap string (list Bookmark)) (a : string) (c : Z)
    (ws : Memento) (k : string) :
  has_context (mkManager st a c ws) k
  = match st !! k with Some _ => true | None => false end.
Proof.
  unfold has_context; simpl. destruct (st !! k) eqn:H.
  - apply bool_decide_eq_true. eauto.
  - apply bool_decide_eq_false. by intros [x Hx].
Qed.

(** [load] when there is nothing to migrate, by cases on the stored maps. *)
Lemma load_new_format (ws : Memento) :
  ws_bookmarks ws = None \/ ws_bookmarks ws = Some [] ->
  let st := default {[DEFAULT_CONTEXT := []]} (ws_bookmark_storage ws) in
  let a := default DEFAULT_CONTEXT (ws_bookmark_active_context ws) in
  load ws
  = match st !! a with
    | Some _ => mkManager st a (-1) ws
    | None =>
        match st !! DEFAULT_CONTEXT with
        | Some _ => mkManager st DEFAULT_CONTEXT (-1) ws
        | None => mkManager (<[DEFAULT_CONTEXT := []]> st) DEFAULT_CONTEXT (-1) ws
        end
    end.
Proof.
  intros Hnone st a.
  assert (load ws =
      let m := mkManager st a (-1) ws in
      if has_context m (activeContextId m) then m
      else
        let m := set_active DEFAULT_CONTEXT m in
        if has_context m (activeContextId m) then m
        else set_storage (<[activeContextId m := []]> (storage m)) m) as ->.
  { unfold load. by destruct Hnone as [->| ->]. }
  cbv zeta. unfold set_active, set_storage; simpl.
  rewrite !has_context_mk.
  destruct (st !! a); [done|]. by destruct (st !! DEFAULT_CONTEXT).
Qed.



(** * Further properties of the store *)

(** ** Contexts *)

Lemma getBookmarks_save (m : BookmarkManager) : getBookmarks (save m) = getBookmarks m.
Proof. reflexivity. Qed.

Lemma persisted_save (m : BookmarkManager) : persisted (save m).
Proof. by split. Qed.










(** ** The active context exists *)

Lemma active_exists_set_active_array (m : BookmarkManager) (bs : list Bookmark) :
  active_exists (set_storage (<[activeContextId m := bs]> (storage m)) m).
Proof. unfold active_exists; simpl. rewrite lookup_insert_eq. eauto. Qed.

Lemma active_exists_mutate (m : BookmarkManager) (bs : list Bookmark) :
  active_exists m -> active_exists (mutate_bookmarks bs m).
Proof.
  intros Ha. unfold mutate_bookmarks.
  destruct (has_context _ _); [apply active_exists_set_active_array | done].
Qed.

Lemma active_exists_same_storage (m m' : BookmarkManager) :
  storage m' = storage m -> activeContextId m' = activeContextId m ->
  active_exists m -> active_exists m'.
Proof. unfold active_exists. by intros -> ->. Qed.

Lemma active_exists_removeBookmark (bid : string) (m : BookmarkManager) :
  active_exists (removeBookmark bid m).
Proof.
  unfold removeBookmark. cbv zeta.
  set (m1 := set_storage _ m).
  assert (H1 : active_exists m1) by apply active_exists_set_active_array.
  destruct (_ <? _); [exact H1|]. destruct (_ =? _); exact H1.
Qed.

Lemma active_exists_reorderBookmarks (dragged : Bookmark) (target : option Bookmark)
    (m : BookmarkManager) :
  active_exists m -> active_exists (reorderBookmarks dragged target m).
Proof.
  intros Ha. unfold reorderBookmarks. cbv zeta.
  destruct (_ =? -1); [done|]. destruct (at_index _ _); [|done].
  destruct target as [t|]; [destruct (negb _)|];
    exact (active_exists_mutate m _ Ha).
Qed.




(** ** Persistence *)

Lemma load_of_saved (m : BookmarkManager) :
  no_legacy (workspaceState m) -> active_exists m ->
  load (workspaceState (save m)) = set_cursor (-1) (save m).
Proof.
  intros Hleg [bs Hbs].
  rewrite load_new_format by exact Hleg. simpl. by rewrite Hbs.
Qed.

(** Saving and constructing the manager anew from the workspace state gives
    the saved contexts and active id with an unset cursor, provided no
    old-format entry is pending and the active context exists. *)
Theorem save_load_roundtrip (m : BookmarkManager) :
  no_legacy (workspaceState m) -> active_exists m ->
  load (workspaceState (save m)) = set_cursor (-1) (save m) /\
  storage (load (workspaceState (save m))) = storage m /\
  activeContextId (load (workspaceState (save m))) = activeContextId m /\
  getBookmarks (load (workspaceState (save m))) = getBookmarks m /\
  getCurrentBookmark (load (workspaceState (save m))) = None.
Proof.
  intros Hleg Ha. rewrite (load_of_saved m Hleg Ha). by repeat split.
Qed.

Lemma save_load_roundtrip_witness :
  load (workspaceState (save (twoContexts [bookmarkAt "A" 5] 0)))
  = set_cursor (-1) (save (twoContexts [bookmarkAt "A" 5] 0)).
Proof.
  apply (save_load_roundtrip (twoContexts [bookmarkAt "A" 5] 0)).
  - by left.
  - vm_compute. eauto.
Defined.


Lemma workspaceState_load_new_format (ws : Memento) :
  no_legacy ws -> workspaceState (load ws) = ws.
Proof.
  intros H. rewrite load_new_format by exact H. cbv zeta.
  destruct (_ !! _); [done|]. by destruct (_ !! _).
Qed.

(** Hydration settles: constructing the manager again from the workspace
    state the first construction left behind gives the same manager, so an
    old-format entry is migrated once and a fallback is repeated as it
    was. *)
Theorem load_idempotent (ws : Memento) :
  load (workspaceState (load ws)) = load ws.
Proof.
  destruct (ws_bookmarks ws) as [[|b bs]|] eqn:Hold.
  - by rewrite workspaceState_load_new_format by (by right).
  - unfold load at 2 3. rewrite Hold.
    rewrite load_of_saved; [done | by left |].
    unfold active_exists; simpl. rewrite lookup_insert_eq. eauto.
  - by rewrite workspaceState_load_new_format by (by left).
Qed.

Lemma reloads_intro (m : BookmarkManager) :
  persisted m -> no_legacy (workspaceState m) -> active_exists m -> reloads m.
Proof.
  intros [Hst Hact] Hleg [bs Hbs]. unfold reloads.
  rewrite load_new_format by exact Hleg. rewrite Hst, Hact. simpl.
  by rewrite Hbs.
Qed.

Lemma reloads_save (m : BookmarkManager) :
  no_legacy (workspaceState m) -> active_exists m -> reloads (save m).
Proof. intros Hleg Ha. apply reloads_intro; [apply persisted_save | done | done]. Qed.

Lemma workspaceState_mutate (m : BookmarkManager) (bs : list Bookmark) :
  workspaceState (mutate_bookmarks bs m) = workspaceState m.
Proof. unfold mutate_bookmarks. by destruct (has_context _ _). Qed.

(** After every operation that changes the store, a restart finds the
    contexts and the active id the operation left in memory, with the
    cursor unset (no old-format entry pending, active context existing). *)
Theorem reload_after_mutation (m : BookmarkManager)
    (name uuid path lbl bid : string) (n : Z) (dragged : Bookmark)
    (target : option Bookmark) (event : TextDocumentChangeEvent) :
  no_legacy (workspaceState m) -> active_exists m ->
  reloads (addBookmark uuid path n lbl m) /\
  reloads (removeBookmark bid m) /\
  reloads (clearAllBookmarks m) /\
  (reorderBookmarks dragged target m = m \/
   reloads (reorderBookmarks dragged target m)) /\
  (snd (createContext name m) = true -> reloads (fst (createContext name m))) /\
  (snd (switchContext name m) = true -> reloads (fst (switchContext name m))) /\
  (snd (deleteContext name m) = Outcome.success ->
     reloads (fst (deleteContext name m))) /\
  (snd (handleTextDocumentChange event m) = Returned true ->
     reloads (fst (handleTextDocumentChange event m))).
Proof.
  intros Hleg Ha.
  split; [|split; [|split; [|split; [|split; [|split; [|split]]]]]].
  - unfold addBookmark. apply reloads_save.
    + by rewrite workspaceState_mutate.
    + by apply active_exists_mutate.
  - pose proof (active_exists_removeBookmark bid m) as Hr. revert Hr.
    unfold removeBookmark. cbv zeta. set (m1 := set_storage _ m).
    destruct (_ <? _); [|destruct (_ =? _)]; intros Hr;
      apply reloads_save; done.
  - unfold clearAllBookmarks. apply reloads_save; [done|].
    apply (active_exists_set_active_array m []).
  - pose proof (active_exists_reorderBookmarks dragged target m Ha) as Hr.
    revert Hr. unfold reorderBookmarks. cbv zeta.
    destruct (_ =? -1); [by left|]. destruct (at_index _ _); [|by left].
    intros Hr. right.
    destruct target as [t|]; [destruct (negb _)|];
      (apply reloads_save; [simpl; by rewrite workspaceState_mutate | exact Hr]).
  - unfold createContext. destruct (_ || _); [done|]. intros _. simpl.
    apply reloads_save; [done|]. unfold active_exists; simpl.
    destruct (decide (name = activeContextId m)) as [->|Hne];
      [rewrite lookup_insert_eq; eauto | by rewrite lookup_insert_ne].
  - unfold switchContext. destruct (has_context m name) eqn:Hn; [|done].
    intros _. simpl. apply reloads_save; [done|].
    by apply has_context_true in Hn.
  - unfold deleteContext. destruct (negb _); [done|].
    destruct (String.eqb_spec name (activeContextId m)); [done|].
    destruct (_ <=? _)%nat; [done|]. intros _. simpl.
    apply reloads_save; [done|]. unfold active_exists; simpl.
    by rewrite lookup_delete_ne.
  - destruct (decide (List.filter (inFile (uri_fsPath (document event)))
                        (getBookmarks m) = [])) as [He|Hne].
    { unfold handleTextDocumentChange. cbv zeta. by rewrite He. }
    rewrite (handleTextDocumentChange_reconcile event m Hne).
    destruct (reconcile event (getBookmarks m)) as [[bs k] f].
    destruct f; [|done]. destruct (_ || _); [|done]. intros _. simpl.
    apply reloads_save; [done | apply active_exists_set_active_array].
Qed.

Lemma reload_after_mutation_witness :
  storage (load (workspaceState (removeBookmark "A" (twoContexts [bookmarkAt "A" 5] 0))))
  = storage (removeBookmark "A" (twoContexts [bookmarkAt "A" 5] 0)).
Proof.
  destruct (reload_after_mutation (twoContexts [bookmarkAt "A" 5] 0)
              "work" "u" "/src/app.ts" "l" "A" 1 (bookmarkAt "A" 1) None
              (mkEvent (uniformDocument 3 "x") []))
    as (_ & [H _] & _).
  - by left.
  - vm_compute. eauto.
  - exact H.
Defined.

(** ** Adding, and the identifiers of a context *)

Lemma getBookmarks_addBookmark (uuid path : string) (n : Z) (lbl : string)
    (m : BookmarkManager) :
  active_exists m ->
  getBookmarks (addBookmark uuid path n lbl m)
  = getBookmarks m ++ [mkBookmark uuid path n lbl].
Proof.
  intros Ha. unfold addBookmark. rewrite getBookmarks_save.
  rewrite mutate_bookmarks_present by (by apply has_context_true).
  apply getBookmarks_set.
Qed.

(** [addBookmark] puts the new bookmark at the end of the active sequence
    and keeps the bookmarks before it in their order; the cursor index
    stays, and with it the current bookmark of a valid cursor; identifiers
    stay unique when the new one is fresh.  When the active id names no
    context nothing is stored. *)
Theorem addBookmark_appends (uuid path : string) (n : Z) (lbl : string)
    (m : BookmarkManager) :
  let m' := addBookmark uuid path n lbl m in
  (active_exists m ->
     getBookmarks m' = getBookmarks m ++ [mkBookmark uuid path n lbl] /\
     (cursor_valid m ->
        cursor_valid m' /\ getCurrentBookmark m' = getCurrentBookmark m) /\
     (unique_ids (getBookmarks m) ->
      Forall (fun b => id b <> uuid) (getBookmarks m) ->
      unique_ids (getBookmarks m'))) /\
  (~ active_exists m -> storage m' = storage m) /\
  currentBookmarkIndex m' = currentBookmarkIndex m.
Proof.
  intros m'.
  assert (Hc : currentBookmarkIndex m' = currentBookmarkIndex m).
  { unfold m', addBookmark; simpl. apply cursor_mutate. }
  split; [|split; [|exact Hc]].
  - intros Ha.
    pose proof (getBookmarks_addBookmark uuid path n lbl m Ha) as Hbs.
    fold m' in Hbs.
    split; [exact Hbs|]. split.
    + unfold cursor_valid, getCurrentBookmark, at_index, length_Z.
      rewrite Hbs, Hc, length_app. simpl length. intros Hv. split; [lia|].
      destruct (Z.ltb_spec (currentBookmarkIndex m) 0); [done|]. simpl.
      destruct (Z.leb_spec (Z.of_nat (length (getBookmarks m)))
                  (currentBookmarkIndex m)); [lia|].
      destruct (Z.leb_spec (Z.of_nat (length (getBookmarks m) + 1))
                  (currentBookmarkIndex m)); [lia|].
      apply lookup_app_l. lia.
    + unfold unique_ids. rewrite Hbs, fmap_app. simpl. intros Hu Hfresh.
      apply NoDup_app. split; [done|]. split; [|apply NoDup_singleton].
      intros i Hi Hin. apply list_elem_of_singleton in Hin as ->.
      apply list_elem_of_fmap in Hi as (b & Hb & Hin).
      rewrite Forall_forall in Hfresh. by apply (Hfresh b Hin).
  - intros Hno. unfold m', addBookmark, mutate_bookmarks; simpl.
    destruct (has_context m (activeContextId m)) eqn:H; [|done].
    by apply has_context_true in H.
Qed.

Lemma addBookmark_appends_witness :
  getBookmarks (addBookmark "B" "/src/app.ts" 10 "B" (storeOf [bookmarkAt "A" 5] 0))
  = [bookmarkAt "A" 5; bookmarkAt "B" 10] /\
  storage (addBookmark "B" "/src/app.ts" 10 "B"
             (mkManager {[DEFAULT_CONTEXT := []]} "gone" (-1) emptyMemento))
  = {[DEFAULT_CONTEXT := []]}.
Proof.
  split.
  - destruct (addBookmark_appends "B" "/src/app.ts" 10 "B"
                (storeOf [bookmarkAt "A" 5] 0)) as [H _].
    destruct H as [H _]; [vm_compute; eauto | exact H].
  - destruct (addBookmark_appends "B" "/src/app.ts" 10 "B"
                (mkManager {[DEFAULT_CONTEXT := []]} "gone" (-1) emptyMemento))
      as (_ & H & _).
    apply H. vm_compute. by intros [x Hx].
Defined.

(** ** Choosing the current bookmark *)

Lemma getBookmarks_set_cursor (i : Z) (m : BookmarkManager) :
  getBookmarks (set_cursor i m) = getBookmarks m.
Proof. reflexivity. Qed.

Lemma setCurrentBookmarkById_found (bid : string) (m : BookmarkManager)
    (pre post : list Bookmark) (b : Bookmark) :
  bid <> "" -> getBookmarks m = pre ++ b :: post -> id b = bid ->
  Forall (fun x => id x <> bid) pre ->
  setCurrentBookmarkById (Some bid) m = set_cursor (length_Z pre) m.
Proof.
  intros Hne Hbs Hid Hpre. unfold setCurrentBookmarkById.
  apply String.eqb_neq in Hne. rewrite Hne. fold (has_id bid). rewrite Hbs.
  rewrite (findIndex_first (has_id bid) pre post b);
    [done | by apply no_id_has_id | unfold has_id; rewrite Hid; apply String.eqb_refl].
Qed.

(** [setCurrentBookmarkById] followed by [getCurrentBookmark]: an identifier
    held by the active context selects the first bookmark that carries it;
    no identifier, the empty identifier or an identifier the context does
    not hold leave no current bookmark.  The sequences are not touched. *)
Theorem setCurrentBookmarkById_selects (sel : option string) (m : BookmarkManager) :
  let m' := setCurrentBookmarkById sel m in
  storage m' = storage m /\ activeContextId m' = activeContextId m /\
  workspaceState m' = workspaceState m /\
  (sel = None \/ sel = Some "" \/
   (exists bid, sel = Some bid /\ Forall (fun x => id x <> bid) (getBookmarks m)) ->
     currentBookmarkIndex m' = -1 /\ getCurrentBookmark m' = None) /\
  (forall bid pre b post,
     sel = Some bid -> bid <> "" ->
     getBookmarks m = pre ++ b :: post -> id b = bid ->
     Forall (fun x => id x <> bid) pre ->
     currentBookmarkIndex m' = length_Z pre /\ getCurrentBookmark m' = Some b).
Proof.
  intros m'.
  assert (Hframe : storage m' = storage m /\ activeContextId m' = activeContextId m /\
                   workspaceState m' = workspaceState m).
  { unfold m', setCurrentBookmarkById. destruct sel as [i|]; [|done].
    by destruct (String.eqb i ""). }
  destruct Hframe as (Hst & Hact & Hws).
  split; [done|]. split; [done|]. split; [done|]. split.
  - intros Hcase.
    assert (Hc : currentBookmarkIndex m' = -1).
    { unfold m', setCurrentBookmarkById.
      destruct Hcase as [->|[->|(bid & -> & Habs)]]; [done | done |].
      destruct (String.eqb bid ""); [done|]. simpl.
      fold (has_id bid). apply findIndex_absent. by apply no_id_has_id. }
    split; [done|]. unfold getCurrentBookmark. by rewrite Hc.
  - intros bid pre b post -> Hne Hbs Hid Hpre. unfold m'.
    rewrite (setCurrentBookmarkById_found bid m pre post b Hne Hbs Hid Hpre).
    split; [done|].
    unfold getCurrentBookmark. rewrite getBookmarks_set_cursor, Hbs. simpl.
    unfold length_Z. rewrite length_app. simpl length.
    destruct (Z.ltb_spec (Z.of_nat (length pre)) 0); [lia|].
    destruct (Z.leb_spec (Z.of_nat (length pre + S (length post)))
                (Z.of_nat (length pre))); [lia|]. simpl.
    apply at_index_middle.
Qed.

Lemma setCurrentBookmarkById_selects_witness :
  getCurrentBookmark
    (setCurrentBookmarkById (Some "B")
       (storeOf [bookmarkAt "A" 5; bookmarkAt "B" 10] (-1)))
  = Some (bookmarkAt "B" 10) /\
  getCurrentBookmark
    (setCurrentBookmarkById (Some "Z")
       (storeOf [bookmarkAt "A" 5; bookmarkAt "B" 10] 1))
  = None.
Proof.
  split.
  - destruct (setCurrentBookmarkById_selects (Some "B")
                (storeOf [bookmarkAt "A" 5; bookmarkAt "B" 10] (-1)))
      as (_ & _ & _ & _ & H).
    destruct (H "B" [bookmarkAt "A" 5] (bookmarkAt "B" 10) []) as [_ Hc];
      [reflexivity | discriminate | reflexivity | reflexivity | | exact Hc].
    repeat constructor. vm_compute. discriminate.
  - destruct (setCurrentBookmarkById_selects (Some "Z")
                (storeOf [bookmarkAt "A" 5; bookmarkAt "B" 10] 1))
      as (_ & _ & _ & H & _).
    destruct H as [_ Hc]; [|exact Hc].
    right; right. exists "Z". split; [reflexivity|].
    repeat constructor; vm_compute; discriminate.
Defined.

(** After a jump to a bookmark ([setCurrentBookmarkById] with its
    identifier, as [jumpTo] does), [getNextBookmark] yields the bookmark
    that follows it in the sequence, or nothing when it is the last, and
    [getPreviousBookmark] the one before it, or nothing when it is the
    first. *)
Theorem navigation_continues_from_jump (bid : string) (m : BookmarkManager)
    (pre post : list Bookmark) (b : Bookmark) :
  bid <> "" -> getBookmarks m = pre ++ b :: post -> id b = bid ->
  Forall (fun x => id x <> bid) pre ->
  let m' := setCurrentBookmarkById (Some bid) m in
  snd (getNextBookmark m') = head post /\
  snd (getPreviousBookmark m') = last pre.
Proof.
  intros Hne Hbs Hid Hpre m'. unfold m'.
  rewrite (setCurrentBookmarkById_found bid m pre post b Hne Hbs Hid Hpre).
  unfold getNextBookmark, getPreviousBookmark.
  rewrite getBookmarks_set_cursor, Hbs. simpl.
  unfold length_Z. rewrite length_app. simpl length.
  destruct (Z.eqb_spec (Z.of_nat (length pre + S (length post))) 0); [lia|].
  simpl. split.
  - destruct post as [|nxt post]; simpl.
    + destruct (Z.leb_spec (Z.of_nat (length pre + 1) - 1) (Z.of_nat (length pre)));
        [done | lia].
    + destruct (Z.leb_spec (Z.of_nat (length pre + S (S (length post))) - 1)
                  (Z.of_nat (length pre))); [lia|]. simpl.
      replace (Z.of_nat (length pre) + 1) with (Z.of_nat (length (pre ++ [b])))
        by (rewrite length_app; simpl; lia).
      rewrite at_index_nat.
      replace (pre ++ b :: nxt :: post) with ((pre ++ [b]) ++ nxt :: post)
        by (by rewrite <- app_assoc).
      by apply list_lookup_middle.
  - destruct (Z.leb_spec (Z.of_nat (length pre)) 0) as [H0|Hpos]; simpl.
    + destruct pre; [done | simpl in H0; lia].
    + destruct pre as [|p pre] using rev_ind; [simpl in Hpos; lia|].
      rewrite last_snoc. rewrite length_app in *. simpl length in *.
      replace (Z.of_nat (length pre + 1) - 1) with (Z.of_nat (length pre)) by lia.
      rewrite at_index_nat. rewrite <- app_assoc. simpl.
      by apply list_lookup_middle.
Qed.

Lemma navigation_continues_from_jump_witness :
  snd (getNextBookmark
         (setCurrentBookmarkById (Some "B")
            (storeOf [bookmarkAt "A" 1; bookmarkAt "B" 2; bookmarkAt "C" 3] (-1))))
  = Some (bookmarkAt "C" 3).
Proof.
  destruct (navigation_continues_from_jump "B"
              (storeOf [bookmarkAt "A" 1; bookmarkAt "B" 2; bookmarkAt "C" 3] (-1))
              [bookmarkAt "A" 1] [bookmarkAt "C" 3] (bookmarkAt "B" 2))
    as [H _]; [discriminate | reflexivity | reflexivity | | exact H].
  repeat constructor. vm_compute. discriminate.
Defined.

(** ** Reordering loses nothing *)

Lemma splice_in_Permutation {A : Type} (i : Z) (x : A) (l : list A) :
  splice_in i x l ≡ₚ x :: l.
Proof.
  unfold splice_in. rewrite <- Permutation_middle.
  by rewrite take_drop.
Qed.

(** What [reorderBookmarks] stores when the dragged bookmark is found: a
    sequence and an index inside it. *)
Lemma reorderBookmarks_result (dragged : Bookmark) (target : option Bookmark)
    (m : BookmarkManager) :
  reorderBookmarks dragged target m = m \/
  exists bs' i,
    reorderBookmarks dragged target m
    = save (set_cursor i (set_storage (<[activeContextId m := bs']> (storage m)) m)) /\
    bs' ≡ₚ getBookmarks m /\ 0 <= i < length_Z bs'.
Proof.
  pose proof (findIndex_bounds (has_id (id dragged)) (getBookmarks m)) as Hb.
  destruct (Z.eq_dec (findIndex (has_id (id dragged)) (getBookmarks m)) (-1))
    as [Hno|Hyes].
  { left. unfold reorderBookmarks. fold (has_id (id dragged)). by rewrite Hno. }
  right.
  destruct (findIndex_found (has_id (id dragged)) (getBookmarks m))
    as (pre & removed & post & Hbs & Hpre & Hrem & _); [lia|].
  apply no_id_has_id in Hpre. apply String.eqb_eq in Hrem.
  pose proof (reorderBookmarks_found dragged target m pre post removed
                Hbs Hrem Hpre) as Hfound.
  assert (Hperm : removed :: pre ++ post ≡ₚ getBookmarks m).
  { rewrite Hbs. apply Permutation_middle. }
  assert (Hpush : push removed (pre ++ post) ≡ₚ getBookmarks m).
  { unfold push. rewrite <- Hperm. by rewrite Permutation_app_comm. }
  assert (Hlast : 0 <= length_Z (push removed (pre ++ post)) - 1
                  < length_Z (push removed (pre ++ post))).
  { unfold push, length_Z. rewrite length_app. simpl. lia. }
  destruct target as [t|].
  - pose proof (findIndex_bounds (has_id (id t)) (pre ++ post)) as Ht.
    destruct (Z.eqb_spec (findIndex (has_id (id t)) (pre ++ post)) (-1)) as [He|Hn].
    + exists (push removed (pre ++ post)), (length_Z (push removed (pre ++ post)) - 1).
      split; [|done]. apply Hfound. cbv zeta. by rewrite He.
    + exists (splice_in (findIndex (has_id (id t)) (pre ++ post)) removed (pre ++ post)),
             (findIndex (has_id (id t)) (pre ++ post)).
      split.
      { apply Hfound. cbv zeta.
        destruct (Z.eqb_spec (findIndex (has_id (id t)) (pre ++ post)) (-1));
          [done|]. reflexivity. }
      split; [by rewrite splice_in_Permutation|].
      unfold length_Z in *. rewrite (Permutation_length (splice_in_Permutation _ _ _)).
      simpl. lia.
  - exists (push removed (pre ++ post)), (length_Z (push removed (pre ++ post)) - 1).
    split; [by apply Hfound | done].
Qed.

(** [reorderBookmarks] only rearranges: the active sequence afterwards is a
    permutation of the sequence before (no bookmark is lost, added or
    duplicated), identifiers stay unique, and the cursor is unset or inside
    the sequence whenever it was. *)
Theorem reorderBookmarks_permutes (dragged : Bookmark) (target : option Bookmark)
    (m : BookmarkManager) :
  let m' := reorderBookmarks dragged target m in
  getBookmarks m' ≡ₚ getBookmarks m /\
  length (getBookmarks m') = length (getBookmarks m) /\
  (unique_ids (getBookmarks m) -> unique_ids (getBookmarks m')) /\
  (cursor_valid m -> cursor_valid m').
Proof.
  intros m'.
  assert (Hperm : getBookmarks m' ≡ₚ getBookmarks m /\ (cursor_valid m -> cursor_valid m')).
  { unfold m'.
    destruct (reorderBookmarks_result dragged target m)
      as [->|(bs' & i & -> & Hp & Hi)]; [done|].
    assert (Hbs : getBookmarks (save (set_cursor i
                    (set_storage (<[activeContextId m := bs']> (storage m)) m))) = bs').
    { unfold getBookmarks; simpl. by rewrite lookup_insert_eq. }
    rewrite Hbs. split; [done|]. intros _. unfold cursor_valid. rewrite Hbs.
    simpl. lia. }
  destruct Hperm as [Hperm Hcv].
  split; [done|]. split; [by apply Permutation_length|]. split; [|done].
  unfold unique_ids. by rewrite Hperm.
Qed.

(** ** The cursor stays unset or inside the sequence *)

Lemma removeBookmark_cursor_valid (bid : string) (m : BookmarkManager) :
  unique_ids (getBookmarks m) -> cursor_valid m ->
  cursor_valid (removeBookmark bid m).
Proof.
  intros Hu Hv. unfold cursor_valid in *.
  rewrite getBookmarks_removeBookmark.
  pose proof (cursor_removeBookmark bid m) as Hc. cbv zeta in Hc. rewrite Hc.
  pose proof (findIndex_bounds (has_id bid) (getBookmarks m)) as Hb.
  destruct (Z.eq_dec (findIndex (has_id bid) (getBookmarks m)) (-1)) as [Hno|Hyes].
  - rewrite Hno. rewrite filter_absent by (by apply findIndex_absent_inv).
    destruct (Z.ltb_spec (-1) (currentBookmarkIndex m)); [lia|].
    destruct (Z.eqb_spec (currentBookmarkIndex m) (-1)); lia.
  - destruct (findIndex_found (has_id bid) (getBookmarks m))
      as (pre & b & post & Hbs & _ & Hb1 & Hidx); [lia|].
    assert (Hi : getBookmarks m !! length pre = Some b)
      by (rewrite Hbs; by apply list_lookup_middle).
    destruct (unique_ids_split _ _ _ Hu Hi)
      as (pre' & post' & Hbs' & Hlen & Hpre' & Hpost').
    apply String.eqb_eq in Hb1. rewrite Hb1 in Hpre', Hpost'.
    assert (Hb2 : has_id bid b = true)
      by (unfold has_id; rewrite Hb1; apply String.eqb_refl).
    rewrite Hidx. rewrite Hbs'.
    rewrite (filter_out_middle bid pre' post' b Hpre' Hpost' Hb2).
    rewrite Hbs' in Hv. unfold length_Z in *.
    rewrite length_app in *. simpl length in Hv. rewrite <- Hlen.
    destruct (Z.ltb_spec (Z.of_nat (length pre')) (currentBookmarkIndex m)); [lia|].
    destruct (Z.eqb_spec (currentBookmarkIndex m) (Z.of_nat (length pre'))); lia.
Qed.

(** A cursor that is unset or inside the active sequence stays so under
    every operation of the store except reconciliation; for [removeBookmark]
    this needs the identifiers of the active context to be unique. *)
Theorem cursor_valid_invariant (m : BookmarkManager)
    (name uuid path lbl bid : string) (n : Z) (dragged : Bookmark)
    (target : option Bookmark) (sel : option string) :
  cursor_valid m ->
  cursor_valid (fst (createContext name m)) /\
  cursor_valid (fst (switchContext name m)) /\
  (active_exists m -> cursor_valid (fst (deleteContext name m))) /\
  cursor_valid (addBookmark uuid path n lbl m) /\
  (unique_ids (getBookmarks m) -> cursor_valid (removeBookmark bid m)) /\
  cursor_valid (clearAllBookmarks m) /\
  cursor_valid (reorderBookmarks dragged target m) /\
  cursor_valid (setCurrentBookmarkById sel m) /\
  cursor_valid (fst (getNextBookmark m)) /\
  cursor_valid (fst (getPreviousBookmark m)).
Proof.
  intros Hv.
  split; [|split; [|split; [|split; [|split; [|split; [|split; [|split; [|split]]]]]]]].
  - unfold createContext. destruct (has_context m name) eqn:Hn; simpl; [done|].
    destruct (String.eqb name ""); [done|]. simpl.
    unfold cursor_valid, getBookmarks in *; simpl.
    destruct (decide (name = activeContextId m)) as [->|Hne].
    + apply has_context_false in Hn. rewrite Hn in Hv.
      rewrite lookup_insert_eq. exact Hv.
    + by rewrite lookup_insert_ne.
  - unfold switchContext. destruct (negb _); [done|].
    unfold cursor_valid; simpl. unfold length_Z. lia.
  - intros Ha. unfold deleteContext. destruct (negb _); [done|].
    destruct (String.eqb_spec name (activeContextId m)); [done|].
    destruct (_ <=? _)%nat; [done|].
    unfold cursor_valid, getBookmarks in *; simpl. by rewrite lookup_delete_ne.
  - unfold cursor_valid in *. unfold addBookmark. rewrite getBookmarks_save.
    simpl. rewrite cursor_mutate. unfold mutate_bookmarks.
    destruct (has_context m (activeContextId m)); [|done].
    rewrite getBookmarks_set. unfold push, length_Z in *. rewrite length_app. lia.
  - intros Hu. by apply removeBookmark_cursor_valid.
  - unfold cursor_valid, clearAllBookmarks, getBookmarks; simpl.
    rewrite lookup_insert_eq. simpl. unfold length_Z. simpl. lia.
  - destruct (reorderBookmarks_result dragged target m)
      as [->|(bs' & i & -> & Hp & Hi)]; [done|].
    unfold cursor_valid, getBookmarks; simpl. rewrite lookup_insert_eq. simpl. lia.
  - unfold setCurrentBookmarkById. destruct sel as [i|].
    + destruct (String.eqb i "").
      * unfold cursor_valid; simpl. unfold length_Z. lia.
      * unfold cursor_valid. rewrite getBookmarks_set_cursor. simpl.
        apply findIndex_bounds.
    + unfold cursor_valid; simpl. unfold length_Z. lia.
  - by apply navigation_cursor_valid.
  - by apply navigation_cursor_valid.
Qed.

Lemma cursor_valid_invariant_witness :
  cursor_valid
    (removeBookmark "B" (storeOf [bookmarkAt "A" 5; bookmarkAt "B" 10] 1)) /\
  cursor_valid
    (reorderBookmarks (bookmarkAt "A" 5) None
       (storeOf [bookmarkAt "A" 5; bookmarkAt "B" 10] 1)).
Proof.
  destruct (cursor_valid_invariant
              (storeOf [bookmarkAt "A" 5; bookmarkAt "B" 10] 1)
              "work" "u" "/src/app.ts" "l" "B" 1 (bookmarkAt "A" 5) None None)
    as (_ & _ & _ & _ & Hr & _ & Ho & _).
  - unfold cursor_valid; vm_compute; split; [discriminate | reflexivity].
  - split; [apply Hr | exact Ho].
    unfold unique_ids. apply (bool_decide_unpack _). by vm_compute.
Defined.

(** With an identifier that occurs twice the hypothesis on [removeBookmark]
    cannot be dropped: both bookmarks go, the cursor moves back by one only,
    and ends outside the sequence. *)
Example removeBookmark_duplicate_ids :
  let m := storeOf [bookmarkAt "A" 5; bookmarkAt "A" 7; bookmarkAt "B" 10] 2 in
  cursor_valid m /\
  getBookmarks (removeBookmark "A" m) = [bookmarkAt "B" 10] /\
  currentBookmarkIndex (removeBookmark "A" m) = 1.
Proof.
  split; [|by vm_compute].
  unfold cursor_valid; vm_compute; split; [discriminate | reflexivity].
Qed.

(** * Further properties of the reconciler *)

(** ** Where an edit must lie to delete a bookmark *)

(** An edit that does not end above a bookmark (not yet marked, on a line
    >= 1) deletes it exactly when it starts on an earlier line or at column
    0 of the bookmark's line; an edit that starts on the bookmark's line
    after column 0, or on a later line, leaves the bookmark as it is.  So
    text typed inside or after the bookmarked line keeps the bookmark, while
    an insertion at the very start of that line removes it. *)
Theorem edit_position_rule (change : ContentChange) (b : Bookmark) (k : Marks) :
  id b ∉ deletedBookmarks k -> 1 <= lineNumber b ->
  0 <= character (range_start (range change)) ->
  0 <= character (range_end (range change)) ->
  lineNumber b - 1 <= line (range_end (range change)) ->
  let bookmarkLine := lineNumber b - 1 in
  let s := range_start (range change) in
  (line s < bookmarkLine \/ (line s = bookmarkLine /\ character s = 0) ->
     visitChange change b k = (b, mark_deleted (id b) k, Continue)) /\
  (bookmarkLine < line s \/ (line s = bookmarkLine /\ 0 < character s) ->
     visitChange change b k = (b, k, Continue)).
Proof.
  intros Hk Hpos Hcs Hce Hend bookmarkLine s.
  apply is_deleted_false in Hk.
  assert (Hc : contains (range change) (mkPos bookmarkLine 0)
               = negb (isBefore (mkPos bookmarkLine 0) s)).
  { unfold contains. fold s.
    assert (isBefore (range_end (range change)) (mkPos bookmarkLine 0) = false) as ->.
    { unfold isBefore; simpl. apply orb_false_iff. split.
      - apply Z.ltb_ge. exact Hend.
      - apply andb_false_iff. right. by apply Z.ltb_ge. }
    by rewrite andb_true_r. }
  split.
  - intros Hstart. apply visitChange_delete; [done | done |].
    fold bookmarkLine. rewrite Hc. apply negb_true_iff.
    unfold isBefore; simpl. apply orb_false_iff. split.
    + apply Z.ltb_ge. lia.
    + destruct Hstart as [Hlt|[He H0]].
      * apply andb_false_iff. left. apply Z.eqb_neq. lia.
      * apply andb_false_iff. right. apply Z.ltb_ge. fold s in Hcs. lia.
  - intros Hstart. apply visitChange_keep; [done | done | lia |].
    fold bookmarkLine. rewrite Hc. apply negb_false_iff.
    unfold isBefore; simpl. apply orb_true_iff.
    destruct Hstart as [Hlt|[He H0]].
    + left. by apply Z.ltb_lt.
    + right. apply andb_true_iff. split; [by apply Z.eqb_eq | by apply Z.ltb_lt].
Qed.

Lemma edit_position_rule_witness :
  visitChange (mkChange (mkRange (mkPos 4 0) (mkPos 4 0)) LF)
    (bookmarkAt "A" 5) noMarks
  = (bookmarkAt "A" 5, mark_deleted "A" noMarks, Continue) /\
  visitChange (mkChange (mkRange (mkPos 4 3) (mkPos 4 3)) LF)
    (bookmarkAt "A" 5) noMarks
  = (bookmarkAt "A" 5, noMarks, Continue).
Proof.
  split.
  - destruct (edit_position_rule (mkChange (mkRange (mkPos 4 0) (mkPos 4 0)) LF)
                (bookmarkAt "A" 5) noMarks) as [H _];
      [apply not_elem_of_empty | vm_compute; discriminate | reflexivity
      | reflexivity | reflexivity |].
    apply H. right. split; reflexivity.
  - destruct (edit_position_rule (mkChange (mkRange (mkPos 4 3) (mkPos 4 3)) LF)
                (bookmarkAt "A" 5) noMarks) as [_ H];
      [apply not_elem_of_empty | vm_compute; discriminate | vm_compute; discriminate
      | vm_compute; discriminate | reflexivity |].
    apply H. right. split; reflexivity.
Defined.

(** ** What a traversal does to the sequence *)

Section Relating.
Variable sel : Bookmark -> bool.
Variable body : Bookmark -> Marks -> Bookmark * Marks * Flow.
Variable R : Bookmark -> Bookmark -> Prop.
Hypothesis R_refl : forall b, R b b.
Hypothesis body_R : forall b k b' k' f,
  sel b = true -> body b k = (b', k', f) -> R b b'.

(** However the traversal ends, the selected bookmarks are related to what
    they were and the others are what they were. *)
Lemma forEachSelected_rel (bs : list Bookmark) :
  forall k bs' k' f,
    forEachSelected sel body bs k = (bs', k', f) ->
    Forall2 (fun b b' => if sel b then R b b' else b' = b) bs bs'.
Proof.
  assert (Hsame : forall l : list Bookmark,
            Forall2 (fun b b' => if sel b then R b b' else b' = b) l l).
  { induction l as [|x l IH]; constructor; [|done]. by destruct (sel x). }
  induction bs as [|b rest IH]; intros k bs' k' f; simpl.
  { intros [= <- <- <-]. constructor. }
  destruct (sel b) eqn:Hs.
  - destruct (body b k) as [[b1 k1] f1] eqn:Hb.
    pose proof (body_R _ _ _ _ _ Hs Hb) as H1.
    destruct f1.
    + destruct (forEachSelected sel body rest k1) as [[rest' k2] f2] eqn:Hrest.
      intros [= <- <- <-]. constructor; [by rewrite Hs | eauto].
    + intros [= <- <- <-]. constructor; [by rewrite Hs | apply Hsame].
  - destruct (forEachSelected sel body rest k) as [[rest' k2] f2] eqn:Hrest.
    intros [= <- <- <-]. constructor; [by rewrite Hs | eauto].
Qed.
End Relating.

Lemma pass_over_refl (path : string) (b : Bookmark) : pass_over path b b.
Proof. by repeat split. Qed.

Lemma pass_over_trans (path : string) (b1 b2 b3 : Bookmark) :
  pass_over path b1 b2 -> pass_over path b2 b3 -> pass_over path b1 b3.
Proof.
  intros [[Hi Hf] H12] [[Hi' Hf'] H23]. repeat split; [congruence | congruence |].
  intros Hn. rewrite <- (H12 Hn). apply H23. rewrite (H12 Hn). done.
Qed.

Lemma Forall2_pass_over_refl (path : string) (bs : list Bookmark) :
  Forall2 (pass_over path) bs bs.
Proof. induction bs; constructor; [apply pass_over_refl | done]. Qed.

(** One traversal of the bookmarks selected among those of [path]. *)
Lemma forEachSelected_pass_over (path : string) (sel : Bookmark -> bool)
    (body : Bookmark -> Marks -> Bookmark * Marks * Flow) :
  (forall b, sel b = true -> inFile path b = true) ->
  (forall b k b' k' f, body b k = (b', k', f) -> same_identity b b') ->
  forall bs k bs' k' f,
    forEachSelected sel body bs k = (bs', k', f) ->
    Forall2 (pass_over path) bs bs'.
Proof.
  intros Hsel Hbody bs k bs' k' f Hrun.
  pose proof (forEachSelected_rel sel body same_identity
                (fun b => conj eq_refl eq_refl)
                (fun b k b' k' f _ H => Hbody b k b' k' f H) _ _ _ _ _ Hrun) as HF.
  eapply Forall2_impl; [exact HF|]. intros b b'. simpl.
  destruct (sel b) eqn:Hs.
  - intros HR. split; [done|]. intros Hn. apply Hsel in Hs. congruence.
  - intros ->. apply pass_over_refl.
Qed.

Lemma visitChange_identity (change : ContentChange) (b : Bookmark) (k : Marks)
    (b' : Bookmark) (k' : Marks) (f : Flow) :
  visitChange change b k = (b', k', f) -> same_identity b b'.
Proof. intros H. by apply visitChange_frame in H as (?&?&_). Qed.

Lemma visitLabel_identity (d : TextDocument) (b : Bookmark) (k : Marks)
    (b' : Bookmark) (k' : Marks) (f : Flow) :
  visitLabel d b k = (b', k', f) -> same_identity b b'.
Proof. intros H. by apply visitLabel_frame in H as (?&?&_). Qed.

Lemma forEachChange_pass_over (path : string) (changes : list ContentChange) :
  forall bs k bs' k' f,
    forEachChange (inFile path) changes bs k = (bs', k', f) ->
    Forall2 (pass_over path) bs bs'.
Proof.
  induction changes as [|change more IH]; intros bs k bs' k' f; simpl.
  { intros [= <- <- <-]. apply Forall2_pass_over_refl. }
  destruct (forEachSelected (inFile path) (visitChange change) bs k)
    as [[bs1 k1] f1] eqn:H1.
  pose proof (forEachSelected_pass_over path (inFile path) (visitChange change)
                (fun b H => H) (visitChange_identity change) _ _ _ _ _ H1) as Hp.
  destruct f1.
  - intros H. eapply Forall2_compose; [|exact Hp|exact (IH _ _ _ _ _ H)].
    intros x y z. apply pass_over_trans.
  - by intros [= <- <- <-].
Qed.

Lemma filter_sublist (p : Bookmark -> bool) (bs : list Bookmark) :
  List.filter p bs `sublist_of` bs.
Proof.
  induction bs as [|b bs IH]; simpl; [constructor|].
  destruct (p b); [by apply sublist_skip | by apply sublist_cons].
Qed.

Lemma Forall2_fmap_eq {A B : Type} (g : A -> B) (l l' : list A) :
  Forall2 (fun x y => g y = g x) l l' -> g <$> l' = g <$> l.
Proof. induction 1 as [|x y l l' H _ IH]; [done|]. rewrite !fmap_cons. congruence. Qed.

Lemma visitChange_deleted_origin (change : ContentChange) (b : Bookmark) (k : Marks)
    (b' : Bookmark) (k' : Marks) (f : Flow) (i : string) :
  visitChange change b k = (b', k', f) ->
  i ∈ deletedBookmarks k' -> i ∈ deletedBookmarks k \/ i = id b.
Proof.
  unfold visitChange. destruct (is_deleted k b); [intros [= <- <- <-]; auto|].
  destruct (_ <? _); [intros [= <- <- <-]; auto|].
  destruct (newPosition _ _); [|intros [= <- <- <-]; auto].
  destruct (contains _ _); intros [= <- <- <-]; simpl; [|auto].
  intros Hin. apply elem_of_union in Hin as [Hin|Hin]; [|auto].
  right. by apply elem_of_singleton in Hin.
Qed.

(** An identifier enters the deleted set only for a selected bookmark. *)
Lemma forEachSelected_deleted_origin (sel : Bookmark -> bool)
    (change : ContentChange) (bs : list Bookmark) :
  forall k bs' k' f i,
    forEachSelected sel (visitChange change) bs k = (bs', k', f) ->
    i ∈ deletedBookmarks k' ->
    i ∈ deletedBookmarks k \/ exists b, b ∈ bs /\ sel b = true /\ id b = i.
Proof.
  induction bs as [|b rest IH]; intros k bs' k' f i; simpl.
  { intros [= <- <- <-]. auto. }
  destruct (sel b) eqn:Hs.
  - destruct (visitChange change b k) as [[b1 k1] f1] eqn:Hb.
    assert (Hstep : i ∈ deletedBookmarks k1 ->
              i ∈ deletedBookmarks k \/
              exists x, x ∈ b :: rest /\ sel x = true /\ id x = i).
    { intros Hin. destruct (visitChange_deleted_origin _ _ _ _ _ _ _ Hb Hin)
        as [H| ->]; [by left|]. right. exists b. split; [left | done]. }
    destruct f1.
    + destruct (forEachSelected sel (visitChange change) rest k1)
        as [[rest' k2] f2] eqn:Hrest.
      intros [= <- <- <-] Hin.
      destruct (IH _ _ _ _ _ Hrest Hin) as [H|(x & Hx & Hsx & Hix)]; [auto|].
      right. exists x. split; [by right | done].
    + intros [= <- <- <-]. exact Hstep.
  - destruct (forEachSelected sel (visitChange change) rest k)
      as [[rest' k2] f2] eqn:Hrest.
    intros [= <- <- <-] Hin.
    destruct (IH _ _ _ _ _ Hrest Hin) as [H|(x & Hx & Hsx & Hix)]; [auto|].
    right. exists x. split; [by right | done].
Qed.

Lemma forEachChange_deleted_origin (path : string) (changes : list ContentChange) :
  forall bs k bs' k' f i,
    forEachChange (inFile path) changes bs k = (bs', k', f) ->
    i ∈ deletedBookmarks k' ->
    i ∈ deletedBookmarks k \/
    exists b, b ∈ bs /\ inFile path b = true /\ id b = i.
Proof.
  induction changes as [|change more IH]; intros bs k bs' k' f i; simpl.
  { intros [= <- <- <-]. auto. }
  destruct (forEachSelected (inFile path) (visitChange change) bs k)
    as [[bs1 k1] f1] eqn:H1.
  pose proof (forEachSelected_deleted_origin _ _ _ _ _ _ _ i H1) as Hfirst.
  destruct f1; [|by intros [= <- <- <-]].
  intros Hrest Hin.
  destruct (IH _ _ _ _ _ _ Hrest Hin) as [H|(b1 & Hb1 & Hs1 & Hi1)]; [auto|].
  right.
  pose proof (forEachSelected_pass_over path (inFile path) (visitChange change)
                (fun b H => H) (visitChange_identity change) _ _ _ _ _ H1) as Hp.
  apply list_elem_of_lookup in Hb1 as [j Hj].
  destruct (Forall2_lookup_r _ _ _ _ _ Hp Hj) as (b & Hb & [[Hid Hfs] _]).
  exists b. split; [by eapply list_elem_of_lookup_2|].
  split; [|congruence]. unfold inFile in *. by rewrite <- Hfs.
Qed.

Lemma visitLabel_same_line (d : TextDocument) (b : Bookmark) (k : Marks)
    (b' : Bookmark) (k' : Marks) (f : Flow) :
  visitLabel d b k = (b', k', f) ->
  same_identity b b' /\ lineNumber b' = lineNumber b.
Proof. intros H. by apply visitLabel_frame in H as (?&?&?&_). Qed.

(** The final sequence of [reconcile], stage by stage: the edit loops, the
    removal, the label loop. *)
Lemma reconcile_stages (event : TextDocumentChangeEvent) (bs bs' : list Bookmark)
    (k : Marks) (f : Flow) :
  reconcile event bs = (bs', k, f) ->
  exists bs1 k1 remaining,
    (exists f1, forEachChange (inFile (uri_fsPath (document event)))
                  (contentChanges event) bs noMarks = (bs1, k1, f1)) /\
    Forall2 (pass_over (uri_fsPath (document event))) bs bs1 /\
    (forall i, i ∈ deletedBookmarks k1 ->
       exists b, b ∈ bs /\ inFile (uri_fsPath (document event)) b = true /\ id b = i) /\
    (remaining = bs1 \/
     remaining = List.filter (fun b => negb (is_deleted k1 b)) bs1) /\
    Forall2 (fun b b' => pass_over (uri_fsPath (document event)) b b' /\
                         lineNumber b' = lineNumber b) remaining bs'.
Proof.
  unfold reconcile. set (path := uri_fsPath (document event)).
  destruct (forEachChange _ _ _ _) as [[bs1 k1] f1] eqn:H1.
  pose proof (forEachChange_pass_over _ _ _ _ _ _ _ H1) as Hp.
  assert (Horigin : forall i, i ∈ deletedBookmarks k1 ->
            exists b, b ∈ bs /\ inFile path b = true /\ id b = i).
  { intros i Hi.
    destruct (forEachChange_deleted_origin _ _ _ _ _ _ _ i H1 Hi) as [H|H];
      [by apply not_elem_of_empty in H | exact H]. }
  assert (Hsame : forall l : list Bookmark,
            Forall2 (fun b b' => pass_over path b b' /\ lineNumber b' = lineNumber b) l l).
  { induction l; constructor; [split; [apply pass_over_refl | done] | done]. }
  destruct f1.
  - cbv zeta.
    set (remaining := if (0 <? size (deletedBookmarks k1))%nat
                      then List.filter (fun b => negb (is_deleted k1 b)) bs1
                      else bs1).
    intros H2.
    exists bs1, k1, remaining. split; [by exists Continue|].
    split; [done|]. split; [done|]. split.
    { unfold remaining.
      destruct (0 <? size (deletedBookmarks k1))%nat; [by right | by left]. }
    pose proof (forEachSelected_rel _ (visitLabel (document event))
                  (fun b b' => same_identity b b' /\ lineNumber b' = lineNumber b)
                  (fun b => conj (conj eq_refl eq_refl) eq_refl)
                  (fun b k b' k' f _ H => visitLabel_same_line _ b k b' k' f H)
                  _ _ _ _ _ H2) as HF.
    eapply Forall2_impl; [exact HF|]. intros b b'. simpl.
    destruct (inFile path b) eqn:Hin; simpl.
    + destruct (negb (is_deleted k1 b)).
      * intros [HR Hl]. split; [|done]. split; [done|]. congruence.
      * intros ->. split; [apply pass_over_refl | done].
    + intros ->. split; [apply pass_over_refl | done].
  - intros [= <- <- <-]. exists bs1, k1, bs1. split; [by exists Abort|].
    split; [done|]. split; [done|]. split; [by left | apply Hsame].
Qed.

(** The sequence the method leaves in the active context is the one
    [reconcile] computes, whatever the method reports. *)
Lemma getBookmarks_handleTextDocumentChange (event : TextDocumentChangeEvent)
    (m : BookmarkManager) :
  getBookmarks (fst (handleTextDocumentChange event m))
  = fst (fst (reconcile event (getBookmarks m))).
Proof.
  destruct (decide (List.filter (inFile (uri_fsPath (document event)))
                      (getBookmarks m) = [])) as [He|Hne].
  - assert (handleTextDocumentChange event m = (m, Returned false)) as ->.
    { unfold handleTextDocumentChange. cbv zeta. by rewrite He. }
    unfold reconcile. cbv zeta.
    destruct (batchVisited_none _ (contentChanges event) (getBookmarks m) noMarks He)
      as [_ ->].
    change (0 <? size (deletedBookmarks noMarks))%nat with false. cbv iota.
    destruct (visited_none
                (fun b => inFile (uri_fsPath (document event)) b
                          && negb (is_deleted noMarks b))
                (visitLabel (document event)) (getBookmarks m) noMarks) as [_ ->];
      [|done].
    eapply filter_none_stronger; [|exact He].
    intros b Hb. by apply andb_true_iff in Hb as [Hb _].
  - rewrite (handleTextDocumentChange_reconcile event m Hne).
    destruct (reconcile event (getBookmarks m)) as [[bs k] f].
    destruct f; [destruct (_ || _)|]; simpl;
      unfold getBookmarks; simpl; by rewrite lookup_insert_eq.
Qed.

Lemma reconcile_sublist {B : Type} (g : Bookmark -> B)
    (event : TextDocumentChangeEvent) (bs bs' : list Bookmark) (k : Marks) (f : Flow) :
  (forall b b', same_identity b b' -> g b' = g b) ->
  reconcile event bs = (bs', k, f) ->
  (g <$> bs') `sublist_of` (g <$> bs).
Proof.
  intros Hg Hrec.
  destruct (reconcile_stages _ _ _ _ _ Hrec)
    as (bs1 & k1 & remaining & _ & H1 & _ & Hrem & H2).
  assert (E1 : g <$> bs1 = g <$> bs).
  { apply Forall2_fmap_eq. eapply Forall2_impl; [exact H1|].
    intros x y [Hs _]. by apply Hg. }
  assert (E2 : g <$> bs' = g <$> remaining).
  { apply Forall2_fmap_eq. eapply Forall2_impl; [exact H2|].
    intros x y [[Hs _] _]. by apply Hg. }
  rewrite E2, <- E1. apply fmap_sublist.
  destruct Hrem as [->| ->]; [done | apply filter_sublist].
Qed.

(** Reconciliation creates nothing: the (identifier, file) pairs of the
    active sequence afterwards are a subsequence of those before, so no
    bookmark is added, re-identified, moved to another file or reordered;
    unique identifiers stay unique. *)
Theorem reconciliation_keeps_identities (event : TextDocumentChangeEvent)
    (m : BookmarkManager) :
  let bs := getBookmarks m in
  let bs' := getBookmarks (fst (handleTextDocumentChange event m)) in
  ((fun b => (id b, fsPath b)) <$> bs')
    `sublist_of` ((fun b => (id b, fsPath b)) <$> bs) /\
  (length bs' <= length bs)%nat /\
  (unique_ids bs -> unique_ids bs').
Proof.
  intros bs bs'. unfold bs'.
  rewrite getBookmarks_handleTextDocumentChange. fold bs.
  destruct (reconcile event bs) as [[bs2 k] f] eqn:Hrec. simpl.
  assert (Hpairs := reconcile_sublist (fun b => (id b, fsPath b)) _ _ _ _ _
                      (fun b b' H => f_equal2 pair (proj1 H) (proj2 H)) Hrec).
  assert (Hids := reconcile_sublist id _ _ _ _ _ (fun b b' H => proj1 H) Hrec).
  split; [exact Hpairs|]. split.
  - apply sublist_length in Hids. by rewrite !length_fmap in Hids.
  - unfold unique_ids. intros Hu. by eapply sublist_NoDup.
Qed.

Lemma NoDup_fmap_inj_on {A B : Type} (g : A -> B) (l : list A) (x y : A) :
  NoDup (g <$> l) -> x ∈ l -> y ∈ l -> g x = g y -> x = y.
Proof.
  induction l as [|a l IH]; [by intros _ H; apply elem_of_nil in H|].
  rewrite fmap_cons. intros Hnd Hx Hy Hg.
  apply NoDup_cons in Hnd as [Ha Hnd].
  apply elem_of_cons in Hx as [->|Hx]; apply elem_of_cons in Hy as [->|Hy].
  - done.
  - exfalso. apply Ha. rewrite Hg. by apply list_elem_of_fmap_2.
  - exfalso. apply Ha. rewrite <- Hg. by apply list_elem_of_fmap_2.
  - by apply IH.
Qed.

Lemma filter_other_files (path : string) (l l' : list Bookmark) :
  Forall2 (pass_over path) l l' ->
  List.filter (fun b => negb (inFile path b)) l'
  = List.filter (fun b => negb (inFile path b)) l.
Proof.
  induction 1 as [|b b' l l' [[Hi Hf] Hsame] _ IH]; simpl; [done|].
  assert (Hin : inFile path b' = inFile path b) by (unfold inFile; by rewrite Hf).
  rewrite Hin. destruct (inFile path b) eqn:Hb; simpl; [done|].
  by rewrite (Hsame eq_refl), IH.
Qed.

Lemma filter_filter_implied (p q : Bookmark -> bool) (l : list Bookmark) :
  (forall x, x ∈ l -> p x = true -> q x = true) ->
  List.filter p (List.filter q l) = List.filter p l.
Proof.
  induction l as [|a l IH]; simpl; [done|]. intros H.
  assert (IH' := IH (fun x Hx => H x (list_elem_of_further _ _ _ Hx))).
  destruct (q a) eqn:Hq; simpl.
  - by rewrite IH'.
  - destruct (p a) eqn:Hp; [|done].
    rewrite (H a) in Hq; [done | left | done].
Qed.

(** With unique identifiers reconciliation leaves the bookmarks of every
    other file exactly as they are and in their order.  (Identifiers decide
    the removal, so a bookmark of another file that shared its identifier
    with a deleted one would go with it.) *)
Theorem reconciliation_spares_other_files (event : TextDocumentChangeEvent)
    (m : BookmarkManager) :
  unique_ids (getBookmarks m) ->
  let path := uri_fsPath (document event) in
  List.filter (fun b => negb (inFile path b))
    (getBookmarks (fst (handleTextDocumentChange event m)))
  = List.filter (fun b => negb (inFile path b)) (getBookmarks m).
Proof.
  intros Hu path. rewrite getBookmarks_handleTextDocumentChange.
  destruct (reconcile event (getBookmarks m)) as [[bs' k] f] eqn:Hrec. simpl.
  destruct (reconcile_stages _ _ _ _ _ Hrec)
    as (bs1 & k1 & remaining & _ & H1 & Horigin & Hrem & H2).
  fold path in H1, Horigin, H2.
  rewrite (filter_other_files path remaining bs')
    by (eapply Forall2_impl; [exact H2|]; by intros x y [H _]).
  rewrite <- (filter_other_files path _ _ H1).
  destruct Hrem as [->| ->]; [done|].
  apply filter_filter_implied.
  intros x Hx Hout. apply negb_true_iff in Hout.
  apply negb_true_iff. apply is_deleted_false. intros Hdel.
  destruct (Horigin _ Hdel) as (b0 & Hb0 & Hin0 & Hid0).
  apply list_elem_of_lookup in Hx as [j Hj].
  destruct (Forall2_lookup_r _ _ _ _ _ H1 Hj) as (b & Hb & [[Hid Hf] Hsame]).
  assert (Hbout : inFile path b = false) by (unfold inFile in *; by rewrite <- Hf).
  assert (b0 = b).
  { apply (NoDup_fmap_inj_on id (getBookmarks m)); [exact Hu | exact Hb0 | |congruence].
    by eapply list_elem_of_lookup_2. }
  congruence.
Qed.

Lemma reconciliation_spares_other_files_witness :
  List.filter (fun b => negb (inFile "/src/app.ts" b))
    (getBookmarks
       (fst (handleTextDocumentChange
               (mkEvent (uniformDocument 10 "x") [cutLines4to6])
               (storeOf [bookmarkAt "A" 5; mkBookmark "O" "/src/other.ts" 5 "o"] 0))))
  = [mkBookmark "O" "/src/other.ts" 5 "o"].
Proof.
  apply (reconciliation_spares_other_files
           (mkEvent (uniformDocument 10 "x") [cutLines4to6])
           (storeOf [bookmarkAt "A" 5; mkBookmark "O" "/src/other.ts" 5 "o"] 0)).
  unfold unique_ids. apply (bool_decide_unpack _). by vm_compute.
Defined.

(** Without unique identifiers the bookmark of the other file goes too. *)
Example reconciliation_shared_identifier :
  getBookmarks
    (fst (handleTextDocumentChange
            (mkEvent (uniformDocument 10 "x") [cutLines4to6])
            (storeOf [bookmarkAt "A" 5; mkBookmark "A" "/src/other.ts" 5 "o"] 0)))
  = [].
Proof. by vm_compute. Qed.

(** ** Line numbers and labels after reconciliation *)

Lemma positive_lines_filter (path : string) (p : Bookmark -> bool)
    (l : list Bookmark) :
  positive_lines path l -> positive_lines path (List.filter p l).
Proof.
  unfold positive_lines. rewrite !Forall_forall. intros Hpos b Hb. apply Hpos.
  apply list_elem_of_In in Hb. apply List.filter_In in Hb as [Hb _].
  by apply list_elem_of_In.
Qed.

(** Line numbers of the edited file that are at least 1 are still at least
    1 after reconciliation, when the ranges are well-formed: an edit shifts
    a bookmark only from strictly below its own end. *)
Theorem reconciliation_keeps_lines_positive (event : TextDocumentChangeEvent)
    (m : BookmarkManager) :
  positive_lines (uri_fsPath (document event)) (getBookmarks m) ->
  Forall (fun change => range_ok (range change)) (contentChanges event) ->
  positive_lines (uri_fsPath (document event))
    (getBookmarks (fst (handleTextDocumentChange event m))).
Proof.
  intros Hpos Hr. rewrite getBookmarks_handleTextDocumentChange.
  destruct (reconcile event (getBookmarks m)) as [[bs' k] f] eqn:Hrec. simpl.
  destruct (reconcile_stages _ _ _ _ _ Hrec)
    as (bs1 & k1 & remaining & [f1 Hloop] & _ & _ & Hrem & H2).
  destruct (forEachChange_total _ _ Hr _ _ _ _ _ Hpos Hloop) as [_ Hpos1].
  assert (Hposr : positive_lines (uri_fsPath (document event)) remaining).
  { destruct Hrem as [->| ->]; [done | by apply positive_lines_filter]. }
  unfold positive_lines in *. clear -Hposr H2.
  induction H2 as [|b b' l l' [[[Hi Hf] _] Hl] _ IH]; [constructor|].
  apply Forall_cons in Hposr as [Hb Hrest].
  constructor; [|by apply IH].
  cbv beta in *. unfold inFile in *. intros Hin.
  replace (lineNumber b') with (lineNumber b). apply Hb. by rewrite <- Hf.
Qed.

Lemma reconciliation_keeps_lines_positive_witness :
  positive_lines "/src/app.ts"
    (getBookmarks
       (fst (handleTextDocumentChange
               (mkEvent (uniformDocument 10 "x") [cutLines4to6])
               (storeOf [bookmarkAt "A" 5; bookmarkAt "B" 10] 0)))).
Proof.
  apply (reconciliation_keeps_lines_positive
           (mkEvent (uniformDocument 10 "x") [cutLines4to6])
           (storeOf [bookmarkAt "A" 5; bookmarkAt "B" 10] 0)).
  - repeat constructor; vm_compute; discriminate.
  - repeat constructor; vm_compute; discriminate.
Defined.

Lemma visitLabel_synced (d : TextDocument) (b : Bookmark) (k : Marks) (t : string) :
  lineAt d (lineNumber (fst (fst (visitLabel d b k))) - 1) = Some t ->
  label (fst (fst (visitLabel d b k))) = trim t.
Proof.
  assert (Hl : lineNumber (fst (fst (visitLabel d b k))) = lineNumber b).
  { destruct (visitLabel d b k) as [[b' k'] f] eqn:Hv. simpl.
    apply visitLabel_frame in Hv as (_&_&H&_). exact H. }
  rewrite Hl. intros Ht. unfold visitLabel.
  pose proof (lineAt_in_range _ _ _ Ht) as Hlt. apply Z.ltb_lt in Hlt.
  rewrite Hlt, Ht.
  destruct (String.eqb_spec (label b) (trim t)) as [He|Hne]; simpl; done.
Qed.

(** When the method returns, every bookmark of the edited file that is left
    in the active context and whose line exists in the document carries that
    line's trimmed text as its label. *)
Theorem reconciliation_refreshes_labels (event : TextDocumentChangeEvent)
    (m : BookmarkManager) (c : bool) :
  snd (handleTextDocumentChange event m) = Returned c ->
  List.filter (inFile (uri_fsPath (document event))) (getBookmarks m) <> [] ->
  Forall (fun b =>
            inFile (uri_fsPath (document event)) b = true ->
            forall t, lineAt (document event) (lineNumber b - 1) = Some t ->
                      label b = trim t)
    (getBookmarks (fst (handleTextDocumentChange event m))).
Proof.
  intros Hret Hne. rewrite getBookmarks_handleTextDocumentChange.
  rewrite (handleTextDocumentChange_reconcile event m Hne) in Hret.
  destruct (reconcile event (getBookmarks m)) as [[bs' k] f] eqn:Hrec. simpl.
  assert (Hf : f = Continue).
  { destruct f; [done|]. simpl in Hret. discriminate. }
  subst f. clear Hret.
  unfold reconcile in Hrec. set (path := uri_fsPath (document event)) in *.
  destruct (forEachChange _ _ _ _) as [[bs1 k1] f1]; destruct f1; [|done].
  cbv zeta in Hrec.
  set (remaining := if (0 <? size (deletedBookmarks k1))%nat
                    then List.filter (fun b => negb (is_deleted k1 b)) bs1
                    else bs1) in Hrec.
  assert (Hnodel : Forall (fun b => is_deleted k1 b = false) remaining).
  { unfold remaining. destruct (0 <? size (deletedBookmarks k1))%nat eqn:Hsz.
    - apply Forall_forall. intros b Hb. apply list_elem_of_In in Hb.
      apply List.filter_In in Hb as [_ Hb]. by apply negb_true_iff in Hb.
    - apply Nat.ltb_ge in Hsz.
      assert (He : deletedBookmarks k1 = ∅)
        by (apply leibniz_equiv, size_empty_iff; lia).
      apply Forall_forall. intros b _. apply is_deleted_false. rewrite He.
      apply not_elem_of_empty. }
  pose proof (forEachSelected_visited _ _ _ _ _ _ Hrec) as HF.
  clear Hrec. revert Hnodel.
  induction HF as [|b b' l l' Hb _ IH]; intros Hnodel; [constructor|].
  apply Forall_cons in Hnodel as [Hd Hrest].
  constructor; [|by apply IH].
  simpl in Hb. rewrite Hd in Hb. simpl in Hb. rewrite andb_true_r in Hb.
  destruct (inFile path b) eqn:Hin.
  - destruct Hb as (kb & _ & <-). intros _ t. apply visitLabel_synced.
  - subst b'. by rewrite Hin.
Qed.

Lemma reconciliation_refreshes_labels_witness :
  Forall (fun b =>
            inFile "/src/app.ts" b = true ->
            forall t, lineAt (uniformDocument 12 "  text  ") (lineNumber b - 1) = Some t ->
                      label b = trim t)
    (getBookmarks
       (fst (handleTextDocumentChange
               (mkEvent (uniformDocument 12 "  text  ") [insertTwoLines])
               (storeOf [bookmarkAt "A" 5] 0)))).
Proof.
  apply (reconciliation_refreshes_labels
           (mkEvent (uniformDocument 12 "  text  ") [insertTwoLines])
           (storeOf [bookmarkAt "A" 5] 0) true).
  - reflexivity.
  - discriminate.
Defined.

(** * The single-context manager and the context-aware one *)

Lemma single_handleTextDocumentChange_reconcile (event : TextDocumentChangeEvent)
    (o : SingleContext.Manager) :
  SingleContext.handleTextDocumentChange event o
  = if length_Z (List.filter (inFile (uri_fsPath (document event)))
                   (SingleContext.bookmarks o)) =? 0
    then (o, Returned false)
    else
      let '(bs, k, f) := reconcile event (SingleContext.bookmarks o) in
      let o1 := SingleContext.set_bookmarks bs o in
      match f with
      | Abort => (o1, Threw)
      | Continue =>
          if (0 <? size (changedBookmarks k))%nat
             || (0 <? size (deletedBookmarks k))%nat
          then (SingleContext.save o1, Returned true)
          else (o1, Returned false)
      end.
Proof.
  unfold SingleContext.handleTextDocumentChange, reconcile. cbv zeta.
  destruct (_ =? 0); [done|].
  destruct (forEachChange _ _ _ _) as [[bs1 k1] f1]. destruct f1; [|done].
  simpl.
  destruct (0 <? size (deletedBookmarks k1))%nat; simpl;
    by destruct (forEachSelected _ _ _ k1) as [[bs3 k3] f3].
Qed.

Lemma handleTextDocumentChange_by_cases (event : TextDocumentChangeEvent)
    (m : BookmarkManager) :
  active_exists m ->
  handleTextDocumentChange event m
  = if length_Z (List.filter (inFile (uri_fsPath (document event)))
                   (getBookmarks m)) =? 0
    then (m, Returned false)
    else
      let '(bs, k, f) := reconcile event (getBookmarks m) in
      let m1 := set_storage (<[activeContextId m := bs]> (storage m)) m in
      match f with
      | Abort => (m1, Threw)
      | Continue =>
          if (0 <? size (changedBookmarks k))%nat
             || (0 <? size (deletedBookmarks k))%nat
          then (save m1, Returned true)
          else (m1, Returned false)
      end.
Proof.
  intros _.
  destruct (Z.eqb_spec (length_Z (List.filter (inFile (uri_fsPath (document event)))
                                    (getBookmarks m))) 0) as [H0|Hn].
  - unfold handleTextDocumentChange. cbv zeta. by rewrite H0.
  - apply handleTextDocumentChange_reconcile. intros He. rewrite He in Hn. done.
Qed.

(** On a store whose active context exists, the context-aware manager shows
    through its active context what the single-context manager shows: from
    equal sequences and cursors every bookmark and navigation operation
    gives equal results and leaves equal sequences and cursors.  For
    [getNextBookmark] the cursor must not lie beyond the sequence, where the
    older code still advances it. *)
Theorem single_context_simulation (o : SingleContext.Manager) (m : BookmarkManager)
    (uuid path lbl bid : string) (n : Z) (dragged : Bookmark)
    (target : option Bookmark) (sel : option string)
    (event : TextDocumentChangeEvent) :
  same_view o m -> active_exists m ->
  same_view (SingleContext.addBookmark uuid path n lbl o)
            (addBookmark uuid path n lbl m) /\
  same_view (SingleContext.removeBookmark bid o) (removeBookmark bid m) /\
  same_view (SingleContext.clearAllBookmarks o) (clearAllBookmarks m) /\
  same_view (SingleContext.reorderBookmarks dragged target o)
            (reorderBookmarks dragged target m) /\
  same_view (SingleContext.setCurrentBookmarkById sel o)
            (setCurrentBookmarkById sel m) /\
  SingleContext.getCurrentBookmark o = getCurrentBookmark m /\
  (same_view (fst (SingleContext.handleTextDocumentChange event o))
             (fst (handleTextDocumentChange event m)) /\
   snd (SingleContext.handleTextDocumentChange event o)
   = snd (handleTextDocumentChange event m)) /\
  (same_view (fst (SingleContext.getPreviousBookmark o))
             (fst (getPreviousBookmark m)) /\
   snd (SingleContext.getPreviousBookmark o) = snd (getPreviousBookmark m)) /\
  (currentBookmarkIndex m < length_Z (getBookmarks m) ->
   same_view (fst (SingleContext.getNextBookmark o)) (fst (getNextBookmark m)) /\
   snd (SingleContext.getNextBookmark o) = snd (getNextBookmark m)).
Proof.
  intros [Hbs Hc] Ha.
  pose proof Ha as Hctx. apply has_context_true in Hctx.
  destruct o as [bs c ws]. simpl in Hbs, Hc. subst bs c.
  split; [|split; [|split; [|split; [|split; [|split; [|split; [|split]]]]]]].
  - split.
    + simpl. by rewrite getBookmarks_addBookmark.
    + unfold addBookmark; simpl. by rewrite cursor_mutate.
  - split.
    + rewrite getBookmarks_removeBookmark.
      unfold SingleContext.removeBookmark; simpl.
      destruct (_ <? _); [done|]. by destruct (_ =? _).
    + pose proof (cursor_removeBookmark bid m) as Hcur. cbv zeta in Hcur.
      rewrite Hcur. unfold SingleContext.removeBookmark; simpl.
      fold (has_id bid).
      destruct (_ <? _); [done|]. by destruct (_ =? _).
  - split; [|done]. unfold clearAllBookmarks, getBookmarks; simpl.
    by rewrite lookup_insert_eq.
  - unfold SingleContext.reorderBookmarks, reorderBookmarks; simpl.
    destruct (_ =? -1); [done|].
    destruct (at_index _ _) as [removed|]; [|done].
    match goal with
    | |- context [let '(_, _) := ?e in _] => destruct e as [bs' i] eqn:He
    end.
    destruct target as [t|]; cbv zeta in He |- *;
      rewrite ?He; rewrite (mutate_bookmarks_present m _ Hctx);
      (split; [unfold getBookmarks; simpl; by rewrite lookup_insert_eq | done]).
  - unfold SingleContext.setCurrentBookmarkById, setCurrentBookmarkById; simpl.
    destruct sel as [i|]; [|done]. by destruct (String.eqb i "").
  - done.
  - rewrite single_handleTextDocumentChange_reconcile,
      (handleTextDocumentChange_by_cases event m Ha). simpl.
    destruct (_ =? 0); [done|].
    destruct (reconcile event (getBookmarks m)) as [[bs' k] f].
    destruct f; [destruct (_ || _)|]; simpl;
      (split; [|done]); (split; [|done]);
      unfold getBookmarks; simpl; by rewrite lookup_insert_eq.
  - unfold SingleContext.getPreviousBookmark, getPreviousBookmark; simpl.
    destruct (_ =? 0); [done|]. simpl. by destruct (_ <=? 0).
  - intros Hin.
    unfold SingleContext.getNextBookmark, getNextBookmark; simpl.
    destruct (Z.eqb_spec (length_Z (getBookmarks m)) 0); [done|]. simpl.
    destruct (Z.eqb_spec (currentBookmarkIndex m) (length_Z (getBookmarks m) - 1));
      destruct (Z.leb_spec (length_Z (getBookmarks m) - 1) (currentBookmarkIndex m));
      try done; lia.
Qed.

Lemma single_context_simulation_witness :
  same_view
    (SingleContext.removeBookmark "A"
       (SingleContext.mk [bookmarkAt "A" 5; bookmarkAt "B" 10] 1 emptyMemento))
    (removeBookmark "A" (storeOf [bookmarkAt "A" 5; bookmarkAt "B" 10] 1)) /\
  snd (SingleContext.getNextBookmark
         (SingleContext.mk [bookmarkAt "A" 5; bookmarkAt "B" 10] 0 emptyMemento))
  = snd (getNextBookmark (storeOf [bookmarkAt "A" 5; bookmarkAt "B" 10] 0)).
Proof.
  split.
  - destruct (single_context_simulation
                (SingleContext.mk [bookmarkAt "A" 5; bookmarkAt "B" 10] 1 emptyMemento)
                (storeOf [bookmarkAt "A" 5; bookmarkAt "B" 10] 1)
                "u" "/src/app.ts" "l" "A" 1 (bookmarkAt "A" 5) None None
                (mkEvent (uniformDocument 3 "x") []))
      as (_ & H & _); [by split | vm_compute; eauto | exact H].
  - destruct (single_context_simulation
                (SingleContext.mk [bookmarkAt "A" 5; bookmarkAt "B" 10] 0 emptyMemento)
                (storeOf [bookmarkAt "A" 5; bookmarkAt "B" 10] 0)
                "u" "/src/app.ts" "l" "A" 1 (bookmarkAt "A" 5) None None
                (mkEvent (uniformDocument 3 "x") []))
      as (_ & _ & _ & _ & _ & _ & _ & _ & H); [by split | vm_compute; eauto |].
    destruct H as [_ H]; [vm_compute; reflexivity | exact H].
Defined.

(** Beyond the end of the sequence the two [getNextBookmark] part: the older
    one advances the cursor further, the newer one leaves it. *)
Example getNextBookmark_beyond_the_end :
  SingleContext.currentBookmarkIndex
    (fst (SingleContext.getNextBookmark
            (SingleContext.mk [bookmarkAt "A" 5] 1 emptyMemento))) = 2 /\
  currentBookmarkIndex (fst (getNextBookmark (storeOf [bookmarkAt "A" 5] 1))) = 1.
Proof. by vm_compute. Qed.

(** What the single-context manager has saved is what the context-aware
    manager starts from: its sequence becomes the sequence of the context
    "default", which is the active and only context.  (With an empty
    sequence this supposes that no 'bookmark-storage' was written yet.) *)
Theorem upgrade_from_single_context (o : SingleContext.Manager) :
  SingleContext.bookmarks o <> [] \/
  ws_bookmark_storage (SingleContext.workspaceState o) = None ->
  let m := load (SingleContext.workspaceState (SingleContext.save o)) in
  storage m = {[DEFAULT_CONTEXT := SingleContext.bookmarks o]} /\
  activeContextId m = DEFAULT_CONTEXT /\
  getBookmarks m = SingleContext.bookmarks o /\
  currentBookmarkIndex m = -1 /\
  (SingleContext.bookmarks o <> [] ->
     ws_bookmarks (workspaceState m) = None /\ persisted m).
Proof.
  destruct o as [bs c ws]. simpl. intros Hcase.
  destruct bs as [|b bs].
  - destruct Hcase as [Hne|Hst]; [done|].
    rewrite load_new_format by (by right). simpl. rewrite Hst. simpl.
    destruct (decide (default DEFAULT_CONTEXT (ws_bookmark_active_context ws)
                      = DEFAULT_CONTEXT)) as [->|Hd].
    + rewrite lookup_singleton_eq. by repeat split.
    + rewrite lookup_singleton_ne by done. rewrite lookup_singleton_eq.
      by repeat split.
  - unfold load. simpl. rewrite insert_empty.
    repeat split; done.
Qed.

Lemma upgrade_from_single_context_witness :
  getBookmarks
    (load (SingleContext.workspaceState
             (SingleContext.save
                (SingleContext.mk [bookmarkAt "A" 5] 0 emptyMemento))))
  = [bookmarkAt "A" 5].
Proof.
  destruct (upgrade_from_single_context
              (SingleContext.mk [bookmarkAt "A" 5] 0 emptyMemento))
    as (_ & _ & H & _); [left; discriminate | exact H].
Defined.

Lemma reorderBookmarks_permutes_witness :
  unique_ids
    (getBookmarks
       (reorderBookmarks (bookmarkAt "A" 1) (Some (bookmarkAt "C" 3))
          (storeOf [bookmarkAt "A" 1; bookmarkAt "B" 2; bookmarkAt "C" 3] 2))) /\
  cursor_valid
    (reorderBookmarks (bookmarkAt "A" 1) (Some (bookmarkAt "C" 3))
       (storeOf [bookmarkAt "A" 1; bookmarkAt "B" 2; bookmarkAt "C" 3] 2)).
Proof.
  destruct (reorderBookmarks_permutes (bookmarkAt "A" 1) (Some (bookmarkAt "C" 3))
              (storeOf [bookmarkAt "A" 1; bookmarkAt "B" 2; bookmarkAt "C" 3] 2))
    as (_ & _ & Hu & Hv).
  split.
  - apply Hu. unfold unique_ids. apply (bool_decide_unpack _). by vm_compute.
  - apply Hv. unfold cursor_valid; vm_compute; split; [discriminate | reflexivity].
Defined.

Lemma reconciliation_keeps_identities_witness :
  unique_ids
    (getBookmarks
       (fst (handleTextDocumentChange
               (mkEvent (uniformDocument 10 "x") [cutLines4to6])
               (storeOf [bookmarkAt "A" 5; bookmarkAt "B" 10] 0)))).
Proof.
  destruct (reconciliation_keeps_identities
              (mkEvent (uniformDocument 10 "x") [cutLines4to6])
              (storeOf [bookmarkAt "A" 5; bookmarkAt "B" 10] 0)) as (_ & _ & Hu).
  apply Hu. unfold unique_ids. apply (bool_decide_unpack _). by vm_compute.
Defined.
